(** * The catalog and detail page controllers of the library client

    A shallow embedding of [src/pages/Books.tsx] (the derived-view pipeline
    filter -> sort -> paginate, and the page controller around it) and of
    [src/pages/BookDetail.tsx] (loading, the write-review gate, submitting
    a review, adding to a reading list), followed by the properties the
    specification states about them and by further properties of the
    code. *)

From Stdlib Require Import QArith Qround ZArith String Ascii List Sorted Lia Bool.
From stdpp Require Import gmap.
Import ListNotations.

Local Open Scope string_scope.
Local Open Scope list_scope.
Local Open Scope Z_scope.

(** ** JavaScript strings

    A string is a sequence of code units.  The embedding covers the code
    units below 256 (Latin-1): every [ascii] is one code unit, so the
    restriction is carried by the type.  In that range [toLowerCase],
    [trim] and [includes] are the functions below. *)

Module JsString.

(** The WhiteSpace and LineTerminator code units below 256: TAB, LF, VT,
    FF, CR, SP and NBSP. *)
Definition isWhiteSpace (c : ascii) : bool :=
  let n := nat_of_ascii c in
  ((9 <=? n)%nat && (n <=? 13)%nat) || (n =? 32)%nat || (n =? 160)%nat.

Fixpoint trimStart (s : string) : string :=
  match s with
  | EmptyString => EmptyString
  | String c s' => if isWhiteSpace c then trimStart s' else s
  end.

Definition isEmpty (s : string) : bool :=
  match s with EmptyString => true | _ => false end.

Fixpoint trimEnd (s : string) : string :=
  match s with
  | EmptyString => EmptyString
  | String c s' =>
      let r := trimEnd s' in
      if isWhiteSpace c && isEmpty r then EmptyString else String c r
  end.

Definition trim (s : string) : string := trimEnd (trimStart s).

(** Upper-case letters below 256: A-Z, and the Latin-1 letters
    U+00C0-U+00DE without the multiplication sign U+00D7. *)
Definition lowerChar (c : ascii) : ascii :=
  let n := nat_of_ascii c in
  if ((65 <=? n)%nat && (n <=? 90)%nat)
     || ((192 <=? n)%nat && (n <=? 222)%nat && negb (n =? 215)%nat)
  then ascii_of_nat (n + 32) else c.

Fixpoint toLowerCase (s : string) : string :=
  match s with
  | EmptyString => EmptyString
  | String c s' => String (lowerChar c) (toLowerCase s')
  end.

Fixpoint startsWith (s t : string) : bool :=
  match t, s with
  | EmptyString, _ => true
  | String _ _, EmptyString => false
  | String d t', String c s' => Ascii.eqb c d && startsWith s' t'
  end.

(** [s.includes(t)]: [t] occurs in [s] at some position. *)
Fixpoint includes (s t : string) : bool :=
  startsWith s t ||
  match s with
  | EmptyString => false
  | String _ s' => includes s' t
  end.

(** Truthiness of a string: only the empty string is falsy. *)
Definition truthy (s : string) : bool := negb (isEmpty s).

(** [t] is a substring of [s]. *)
Definition Substring (t s : string) : Prop :=
  exists pre post : string, s = String.append pre (String.append t post).

End JsString.

Import JsString.

(** ** Data model *)

(** Modelled from the spec: the [Book] interface of [@/types], which the
    pages import and which is not among the sources.  Section 3 lists the
    fields; the publication year is an integer and the rating a
    floating-point number, both read by the sort step as possibly absent.
    A finite double is a rational, and neither field enters the model as
    NaN: [x || 0] reads NaN as 0 exactly as it reads an absent value, so
    [None] stands for both. *)
Module Book.
Record t := mk {
  id : string;
  title : string;
  author : string;
  genre : string;
  description : string;
  coverImage : string;
  isbn : string;
  publishedYear : option Z;
  rating : option Q;
  createdAt : string;
  updatedAt : string
}.
End Book.

(** ** Books.tsx: the filter step *)

Definition ITEMS_PER_PAGE : Z := 12.

(** The callback of [books.filter] at lines 42-46. *)
Definition matchesQuery (query : string) (book : Book.t) : bool :=
  includes (toLowerCase (Book.title book)) query
  || includes (toLowerCase (Book.author book)) query
  || includes (toLowerCase (Book.genre book)) query.

(** [filteredBooks], lines 38-47.  The guard tests the trimmed query; the
    query that is matched is [searchQuery.toLowerCase()]. *)
Definition filteredBooks (books : list Book.t) (searchQuery : string) : list Book.t :=
  if negb (truthy (trim searchQuery)) then books
  else
    let query := toLowerCase searchQuery in
    List.filter (matchesQuery query) books.

(** The filter step as the specification words it: the query that is
    matched is the lower-cased, trimmed query. *)
Definition filterStep_spec (books : list Book.t) (searchQuery : string) : list Book.t :=
  List.filter (matchesQuery (toLowerCase (trim searchQuery))) books.

(** What the specification's predicate says of one item. *)
Definition Matches (query : string) (book : Book.t) : Prop :=
  Substring query (toLowerCase (Book.title book))
  \/ Substring query (toLowerCase (Book.author book))
  \/ Substring query (toLowerCase (Book.genre book)).

Definition plainBook (t a g : string) : Book.t :=
  Book.mk "b1" t a g "" "" "" (Some 2001) (Some (9 # 2)%Q) "" "".

(** ** Books.tsx: the sort step *)

(** [String.prototype.localeCompare] is the host's collation: it depends on
    the locale the page runs in, so the embedding takes it as an interface.
    Its result is a number of which only the sign is used. *)
Class Collation := localeCompare : string -> string -> Z.

(** Collation by code units, one instance of the interface. *)
Definition codeUnitCompare (s t : string) : Z :=
  match String.compare s t with
  | Lt => -1
  | Eq => 0
  | Gt => 1
  end.

Definition codeUnit : Collation := codeUnitCompare.

(** [a[key]] for a key that names a string field of [Book]; any other key
    reads as undefined. *)
Definition field (key : string) (b : Book.t) : option string :=
  if (key =? "id")%string then Some (Book.id b)
  else if (key =? "title")%string then Some (Book.title b)
  else if (key =? "author")%string then Some (Book.author b)
  else if (key =? "genre")%string then Some (Book.genre b)
  else if (key =? "description")%string then Some (Book.description b)
  else if (key =? "coverImage")%string then Some (Book.coverImage b)
  else if (key =? "isbn")%string then Some (Book.isbn b)
  else if (key =? "createdAt")%string then Some (Book.createdAt b)
  else if (key =? "updatedAt")%string then Some (Book.updatedAt b)
  else None.

(** [b.rating || 0] and [b.publishedYear || 0]. *)
Definition ratingOr0 (b : Book.t) : Q := default 0%Q (Book.rating b).
Definition yearOr0 (b : Book.t) : Z := default 0 (Book.publishedYear b).

(** [String(a[key] ?? '').toLowerCase()], lines 65-66. *)
Definition sortValue (key : string) (b : Book.t) : string :=
  toLowerCase (default "" (field key b)).

(** The comparator handed to [sort], lines 53-68.  The differences are
    exact here and rounded in a double, with the same sign: two finite
    doubles differ by zero only when they are equal. *)
Definition compareFn `{Collation} (sortBy : string) (a b : Book.t) : Q :=
  if (sortBy =? "rating")%string then (ratingOr0 b - ratingOr0 a)%Q
  else if (sortBy =? "publishedYear")%string then inject_Z (yearOr0 b - yearOr0 a)
  else
    let key := sortBy in
    let valA := sortValue key a in
    let valB := sortValue key b in
    inject_Z (localeCompare valA valB).

(** A comparator result greater than zero puts the first argument after
    the second. *)
Definition isPositive (q : Q) : bool := (0 <? Qnum q)%Z.

(** [Array.prototype.sort] is required to be stable, and with a consistent
    comparator its result is the one stable sorted arrangement of the
    array.  Insertion from the right computes it: an element moves behind
    the elements it is strictly greater than and stays in front of the
    first one it is not. *)
Fixpoint insertBy {A : Type} (cmp : A -> A -> Q) (x : A) (l : list A) : list A :=
  match l with
  | [] => [x]
  | y :: l' => if isPositive (cmp x y) then y :: insertBy cmp x l' else x :: l
  end.

Fixpoint arraySort {A : Type} (cmp : A -> A -> Q) (l : list A) : list A :=
  match l with
  | [] => []
  | x :: l' => insertBy cmp x (arraySort cmp l')
  end.

(** [sortedBooks], lines 50-69, as a function of the filtered sequence. *)
Definition sortedBooks `{Collation} (filtered : list Book.t) (sortBy : string) : list Book.t :=
  let sorted := filtered in
  arraySort (compareFn sortBy) sorted.

(** The same step on a store of arrays, where [sort] works in place:
    [[...filteredBooks]] allocates a copy, and [sort] overwrites the array
    it is called on and returns it. *)
Abbreviation heap := (gmap nat (list Book.t)).

Definition spread (r : nat) (h : heap) : option (nat * heap) :=
  match h !! r with
  | Some l => let r' := fresh (dom h) in Some (r', <[r' := l]> h)
  | None => None
  end.

Definition sortInPlace (cmp : Book.t -> Book.t -> Q) (r : nat) (h : heap) : heap :=
  alter (arraySort cmp) r h.

Definition sortedBooksRef `{Collation} (filtered : nat) (sortBy : string) (h : heap)
  : option (nat * heap) :=
  match spread filtered h with
  | Some (sorted, h1) => Some (sorted, sortInPlace (compareFn sortBy) sorted h1)
  | None => None
  end.

(** ** Books.tsx: the paginate step *)

(** [Math.ceil(sortedBooks.length / ITEMS_PER_PAGE)], line 72.  The
    quotient of an array length by 12 is rounded by less than its distance
    to the next integer, so the ceiling of the double is the ceiling of
    the exact quotient. *)
Definition totalPages (sorted : list Book.t) : Z :=
  Qceiling (inject_Z (Z.of_nat (length sorted)) / inject_Z ITEMS_PER_PAGE).

(** [Array.prototype.slice(start, end)] on integers: a negative index
    counts from the end of the array, both indices are clamped to
    [0, length], and an empty range gives the empty array. *)
Definition relativeIndex (len i : Z) : Z :=
  if (i <? 0)%Z then Z.max (len + i) 0 else Z.min i len.

Definition slice {A : Type} (l : list A) (start stop : Z) : list A :=
  let len := Z.of_nat (length l) in
  let k := relativeIndex len start in
  let final := relativeIndex len stop in
  firstn (Z.to_nat (final - k)) (skipn (Z.to_nat k) l).

(** [paginatedBooks], lines 73-76. *)
Definition paginatedBooks (sorted : list Book.t) (currentPage : Z) : list Book.t :=
  let start := (currentPage - 1) * ITEMS_PER_PAGE in
  slice sorted start (start + ITEMS_PER_PAGE).

(** The derived view of the catalog page: what a render computes from the
    raw collection and the three view parameters. *)
Record View := mkView {
  viewFiltered : list Book.t;
  viewSorted : list Book.t;
  viewPage : list Book.t;
  viewTotalPages : Z
}.

Definition derivedView `{Collation}
    (books : list Book.t) (searchQuery sortBy : string) (currentPage : Z) : View :=
  let filtered := filteredBooks books searchQuery in
  let sorted := sortedBooks filtered sortBy in
  mkView filtered sorted (paginatedBooks sorted currentPage) (totalPages sorted).

(** The pages [1 .. n]. *)
Definition pageNumbers (n : Z) : list Z :=
  map (fun i => Z.of_nat i + 1) (seq 0 (Z.to_nat n)).

(** ** Books.tsx: the page controller *)

Module Catalog.

(** The state hooks of the component, lines 13-17. *)
Record state := mk {
  books : list Book.t;
  searchQuery : string;
  isLoading : bool;
  sortBy : string;
  currentPage : Z
}.

Definition initial : state := mk [] "" true "title" 1.

(** [loadBooks], lines 25-35: up to its await, and from the answer of
    [getBooks] on ([None] when the call is rejected). *)
Definition loadBooks_call (st : state) : state :=
  mk (books st) (searchQuery st) true (sortBy st) (currentPage st).

Definition loadBooks_resume (answer : option (list Book.t)) (st : state) : state :=
  mk (default (books st) answer) (searchQuery st) false (sortBy st) (currentPage st).

(** The effect of line 21 runs [loadBooks] once, when the page mounts. *)
Definition mount (answer : option (list Book.t)) : state :=
  loadBooks_resume answer (loadBooks_call initial).

(** [handleSearch] and [handleSort], lines 78-86. *)
Definition handleSearch (query : string) (st : state) : state :=
  mk (books st) query (isLoading st) (sortBy st) 1.

Definition handleSort (value : string) (st : state) : state :=
  mk (books st) (searchQuery st) (isLoading st) value 1.

Definition view `{Collation} (st : state) : View :=
  derivedView (books st) (searchQuery st) (sortBy st) (currentPage st).

(** The updaters of the pagination buttons, lines 151, 162 and 174. *)
Definition previousPage (st : state) : state :=
  mk (books st) (searchQuery st) (isLoading st) (sortBy st)
     (Z.max 1 (currentPage st - 1)).

Definition nextPage `{Collation} (st : state) : state :=
  mk (books st) (searchQuery st) (isLoading st) (sortBy st)
     (Z.min (viewTotalPages (view st)) (currentPage st + 1)).

Definition goToPage (page : Z) (st : state) : state :=
  mk (books st) (searchQuery st) (isLoading st) (sortBy st) page.

(** The values of the sort select, lines 130-133. *)
Definition sortOptions : list string := ["title"; "author"; "rating"; "publishedYear"].

(** What the user can do on the page. *)
Inductive action :=
| Search (query : string)
| Sort (value : string)
| Previous
| Next
| GoTo (page : Z).

(** Whether the render of a state offers an action: nothing while the
    spinner is shown (line 88); the pagination block only with more than
    one page (line 148), with one button per page (line 159), Previous
    disabled on page 1 and Next on the last page. *)
Definition offered `{Collation} (st : state) (a : action) : bool :=
  negb (isLoading st)
  && match a with
     | Search _ => true
     | Sort value => existsb (String.eqb value) sortOptions
     | Previous =>
         (1 <? viewTotalPages (view st)) && negb (currentPage st =? 1)
     | Next =>
         (1 <? viewTotalPages (view st))
         && negb (currentPage st =? viewTotalPages (view st))
     | GoTo page =>
         (1 <? viewTotalPages (view st))
         && existsb (Z.eqb page) (pageNumbers (viewTotalPages (view st)))
     end.

Definition handle `{Collation} (a : action) (st : state) : state :=
  match a with
  | Search query => handleSearch query st
  | Sort value => handleSort value st
  | Previous => previousPage st
  | Next => nextPage st
  | GoTo page => goToPage page st
  end.

Definition step `{Collation} (st : state) (a : action) : state :=
  if offered st a then handle a st else st.

(** The states the page goes through: the one after mounting, and those
    the user's actions lead to. *)
Inductive reachable `{Collation} : state -> Prop :=
| reach_mount (answer : option (list Book.t)) : reachable (mount answer)
| reach_step (st : state) (a : action) : reachable st -> reachable (step st a).

(** The main area of the page, lines 139-145: the grid, or the text
    "No matches found." when the page slice is empty. *)
Inductive mainArea :=
| BookGrid (page : list Book.t)
| NoMatches.

Definition renderMain `{Collation} (st : state) : mainArea :=
  if (0 <? Z.of_nat (length (viewPage (view st)))) then BookGrid (viewPage (view st))
  else NoMatches.

End Catalog.

(** ** BookDetail.tsx: state and actions *)

(** Modelled from the spec: the [ReadingList] and [Review] interfaces of
    [@/types], which are not among the sources.  The identifier collection
    of a list is read through [targetList.bookIds || []], so it can be
    absent. *)
Module ReadingList.
Record t := mk {
  id : string;
  name : string;
  bookIds : option (list string)
}.
End ReadingList.

Module Review.
Record t := mk {
  id : string;
  bookId : string;
  userId : string;
  rating : Z;
  comment : string;
  createdAt : string
}.
End Review.

(** The review being written, [{ rating, comment }]. *)
Record NewReview := mkNewReview {
  newRating : Z;
  newComment : string
}.

(** The state hooks of the component, lines 23-36. *)
Record DetailState := mkDetail {
  book : option Book.t;
  isLoading : bool;
  isUpdating : bool;
  readingLists : list ReadingList.t;
  isModalOpen : bool;
  selectedListId : string;
  reviews : list Review.t;
  isReviewLoading : bool;
  isReviewModalOpen : bool;
  newReview : NewReview;
  isSubmittingReview : bool;
  userId : option string
}.

Inductive notice := BookAdded | ErrorAddingBook | ReviewSubmitted.

(** What an action does, in program order: calls of state setters, calls
    of the data-access collaborator, and messages to the user. *)
Inductive event :=
| SetIsUpdating (b : bool)
| SetIsModalOpen (b : bool)
| SetReviews (l : list Review.t)
| SetIsReviewLoading (b : bool)
| SetIsReviewModalOpen (b : bool)
| SetNewReview (r : NewReview)
| SetIsSubmittingReview (b : bool)
| CreateReview (bookId userId : string) (rating : Z) (comment : string)
| UpdateReadingList (listId : string) (bookIds : list string) (name : string)
| GetReviews (bookId : string)
| Alert (n : notice)
| ShowSuccess (n : notice)
| HandleApiError
| ConsoleError.

Definition isBackendCall (e : event) : bool :=
  match e with
  | CreateReview _ _ _ _ | UpdateReadingList _ _ _ | GetReviews _ => true
  | _ => false
  end.

Definition backendCalls (tr : list event) : list event :=
  List.filter isBackendCall tr.

(** The state after one event; only the setters change it. *)
Definition apply (st : DetailState) (e : event) : DetailState :=
  let '(mkDetail bk ld up rls mo sel rv rl rm nr sb uid) := st in
  match e with
  | SetIsUpdating b => mkDetail bk ld b rls mo sel rv rl rm nr sb uid
  | SetIsModalOpen b => mkDetail bk ld up rls b sel rv rl rm nr sb uid
  | SetReviews l => mkDetail bk ld up rls mo sel l rl rm nr sb uid
  | SetIsReviewLoading b => mkDetail bk ld up rls mo sel rv b rm nr sb uid
  | SetIsReviewModalOpen b => mkDetail bk ld up rls mo sel rv rl b nr sb uid
  | SetNewReview r => mkDetail bk ld up rls mo sel rv rl rm r sb uid
  | SetIsSubmittingReview b => mkDetail bk ld up rls mo sel rv rl rm nr b uid
  | _ => st
  end.

Definition run (st : DetailState) (tr : list event) : DetailState :=
  fold_left apply tr st.

(** How the collaborator answers the calls of one action: whether
    [createReview] and [updateReadingList] resolve or reject, and what
    [getReviews] resolves to, if it does. *)
Record Backend := mkBackend {
  createReviewOk : bool;
  updateReadingListOk : bool;
  getReviewsResult : option (list Review.t)
}.

(** [loadReviews], lines 58-68, up to its await and after it. *)
Definition loadReviews_call (bookId : string) : list event :=
  [SetIsReviewLoading true; GetReviews bookId].

Definition loadReviews_resume (env : Backend) : list event :=
  match getReviewsResult env with
  | Some data => [SetReviews data]
  | None => [ConsoleError]
  end ++ [SetIsReviewLoading false].

(** [userId] is a string or null; null and the empty string are falsy. *)
Definition truthyId (u : option string) : bool :=
  match u with
  | Some s => truthy s
  | None => false
  end.

(** [handleReviewSubmit], lines 111-132.  [loadReviews] is called without
    await: it runs to its own await, the handler finishes, and the rest of
    [loadReviews] runs when the reviews arrive. *)
Definition handleReviewSubmit (env : Backend) (st : DetailState) : list event :=
  match book st with
  | Some bk =>
      if negb (truthyId (userId st)) then []
      else
        [SetIsSubmittingReview true;
         CreateReview (Book.id bk) (default "" (userId st))
                      (newRating (newReview st)) (newComment (newReview st))]
        ++ (if createReviewOk env then
              [ShowSuccess ReviewSubmitted;
               SetIsReviewModalOpen false;
               SetNewReview (mkNewReview 5 "")]
              ++ loadReviews_call (Book.id bk)
              ++ [SetIsSubmittingReview false]
              ++ loadReviews_resume env
            else
              [HandleApiError; SetIsSubmittingReview false])
  | None => []
  end.

(** [readingLists.find((l) => l.id === selectedListId)]. *)
Definition findList (lists : list ReadingList.t) (listId : string) : option ReadingList.t :=
  List.find (fun l => (ReadingList.id l =? listId)%string) lists.

(** [handleConfirmAdd], lines 138-161.  The return inside [try] still runs
    the [finally] block. *)
Definition handleConfirmAdd (env : Backend) (st : DetailState) : list event :=
  match book st with
  | Some bk =>
      if negb (truthy (selectedListId st)) then []
      else
        [SetIsUpdating true]
        ++ match findList (readingLists st) (selectedListId st) with
           | None => []
           | Some targetList =>
               let updatedBookIds :=
                 default [] (ReadingList.bookIds targetList) ++ [Book.id bk] in
               [UpdateReadingList (selectedListId st) updatedBookIds
                                  (ReadingList.name targetList)]
               ++ (if updateReadingListOk env then
                     [Alert BookAdded; SetIsModalOpen false]
                   else
                     [ConsoleError; Alert ErrorAddingBook])
           end
        ++ [SetIsUpdating false]
  | None => []
  end.

(** Modelled from the spec: the [Button] component of
    [@/components/common/Button], which is not among the sources.  Section 7
    has the validation gate: with an empty required field the action is a
    no-op.  A disabled button does not run its [onClick]. *)
Definition Button (disabled : bool) (onClick : DetailState -> list event)
    (st : DetailState) : list event :=
  if disabled then [] else onClick st.

(** The Submit Review button, lines 447-454. *)
Definition submitReviewButton (env : Backend) (st : DetailState) : list event :=
  Button (negb (truthy (newComment (newReview st))) || isSubmittingReview st)
         (handleReviewSubmit env) st.

(** The Confirm button of the reading-list modal, lines 395-402. *)
Definition confirmButton (env : Backend) (st : DetailState) : list event :=
  Button (negb (truthy (selectedListId st)) || isUpdating st)
         (handleConfirmAdd env) st.

(** The collection an action persists: the identifier sequences of its
    [updateReadingList] calls. *)
Definition persisted (tr : list event) : list (string * list string) :=
  flat_map (fun e => match e with
                     | UpdateReadingList l ids _ => [(l, ids)]
                     | _ => []
                     end) tr.

(** ** BookDetail.tsx: loading, gates and the rest of the page *)

(** The initial values of the state hooks, lines 23-36. *)
Definition initialDetail : DetailState :=
  mkDetail None true false [] false "" [] false false (mkNewReview 5 "") false None.

(** How an awaited call ends. *)
Inductive reply (A : Type) :=
| Resolved (a : A)
| Rejected.
Arguments Resolved {A} a.
Arguments Rejected {A}.

(** What the functions outside the two modelled actions do: the events of
    those actions, the remaining state setters, the remaining calls, and
    navigation. *)
Inductive effect :=
| Do (e : event)
| SetBook (b : Book.t)
| SetIsLoading (b : bool)
| SetUserId (u : option string)
| SetReadingLists (l : list ReadingList.t)
| GetBook (bookId : string)
| GetReadingLists
| FetchAuthSession
| Navigate (path : string)
| AlertLogin.

Definition applyEffect (st : DetailState) (ef : effect) : DetailState :=
  let '(mkDetail bk ld up rls mo sel rv rl rm nr sb uid) := st in
  match ef with
  | Do e => apply st e
  | SetBook b => mkDetail (Some b) ld up rls mo sel rv rl rm nr sb uid
  | SetIsLoading b => mkDetail bk b up rls mo sel rv rl rm nr sb uid
  | SetUserId u => mkDetail bk ld up rls mo sel rv rl rm nr sb u
  | SetReadingLists l => mkDetail bk ld up l mo sel rv rl rm nr sb uid
  | _ => st
  end.

Definition runEffects (st : DetailState) (tr : list effect) : DetailState :=
  fold_left applyEffect tr st.

(** [loadBook], lines 39-56.  An absent book navigates to the 404 view and
    returns; [finally] runs on every path. *)
Definition loadBook (bookId : string) (answer : reply (option Book.t)) : list effect :=
  [SetIsLoading true; GetBook bookId]
  ++ match answer with
     | Resolved None => [Navigate "/404"]
     | Resolved (Some data) => [SetBook data]
     | Rejected => [Do HandleApiError]
     end
  ++ [SetIsLoading false].

(** [loadReviews], lines 58-68, as a whole. *)
Definition loadReviews (bookId : string) (env : Backend) : list event :=
  loadReviews_call bookId ++ loadReviews_resume env.

(** [session.userSub || null]: an absent and an empty subject are null. *)
Definition orNull (sub : option string) : option string :=
  match sub with
  | Some s => if truthy s then Some s else None
  | None => None
  end.

(** [checkAuth], lines 78-85. *)
Definition checkAuth (answer : reply (option string)) : list effect :=
  FetchAuthSession
  :: match answer with
     | Resolved userSub => [SetUserId (orNull userSub)]
     | Rejected => [Do ConsoleError]
     end.

(** [loadBooksData], lines 90-97. *)
Definition loadBooksData (answer : reply (list ReadingList.t)) : list effect :=
  GetReadingLists
  :: match answer with
     | Resolved lists => [SetReadingLists lists]
     | Rejected => [Do ConsoleError]
     end.

(** [handleWriteReview], lines 102-109. *)
Definition handleWriteReview (st : DetailState) : list effect :=
  if negb (truthyId (userId st)) then [AlertLogin; Navigate "/login"]
  else [Do (SetIsReviewModalOpen true)].

(** [handleAddToList], lines 134-136. *)
Definition handleAddToList (st : DetailState) : list effect :=
  [Do (SetIsModalOpen true)].

(** What the component returns, lines 162-172: the spinner while loading,
    nothing without a book, the page otherwise. *)
Inductive screen :=
| Spinner
| Blank
| DetailPage (b : Book.t).

Definition render (st : DetailState) : screen :=
  if isLoading st then Spinner
  else match book st with
       | None => Blank
       | Some b => DetailPage b
       end.

(** The review form, lines 417-443: one button per star, which keeps the
    comment, and the comment field, which keeps the rating. *)
Definition starButtons : list Z := [1; 2; 3; 4; 5].

Definition clickStar (star : Z) (st : DetailState) : list event :=
  [SetNewReview (mkNewReview star (newComment (newReview st)))].

Definition typeComment (value : string) (st : DetailState) : list event :=
  [SetNewReview (mkNewReview (newRating (newReview st)) value)].

Inductive formAction :=
| ClickStar (star : Z)
| TypeComment (value : string)
| ClickSubmit (env : Backend)
| ClickCancel.

Definition formEvents (a : formAction) (st : DetailState) : list event :=
  match a with
  | ClickStar star =>
      if existsb (Z.eqb star) starButtons then clickStar star st else []
  | TypeComment value => typeComment value st
  | ClickSubmit env => submitReviewButton env st
  | ClickCancel => [SetIsReviewModalOpen false]
  end.

Definition formStep (st : DetailState) (a : formAction) : DetailState :=
  run st (formEvents a st).

(** The stars of a review, lines 334-344: star [i] of five is filled when
    [i < review.rating]; and of the form, lines 417-426: star [star] is
    lit when [newReview.rating >= star]. *)
Definition reviewStars (rating : Z) : list bool :=
  map (fun i => Z.of_nat i <? rating) (seq 0 5).

Definition formStars (rating : Z) : list bool :=
  map (fun star => star <=? rating) starButtons.

(** A state of the detail page with a book loaded and a user signed in,
    and a collaborator that answers every call. *)
Definition sampleState (sel : string) (lists : list ReadingList.t) (comment : string)
  : DetailState :=
  mkDetail (Some (plainBook "a" "x" "y")) false false lists true sel
           [] false true (mkNewReview 4 comment) false (Some "u1").

Definition sampleEnv : Backend := mkBackend true true (Some []).

(** * Properties *)

(** ** Strings *)

Section StringFacts.

Lemma startsWith_prefix (s t : string) :
  startsWith s t = true <-> exists post : string, s = String.append t post.
Proof.
  revert s; induction t as [|d t IH]; intros s; simpl.
  - split; [intros _; now exists s | now destruct s].
  - destruct s as [|c s]; simpl.
    + split; [discriminate | intros [post Hp]; discriminate].
    + rewrite andb_true_iff, IH. split.
      * intros [Hc [post ->]]. apply Ascii.eqb_eq in Hc as ->. now exists post.
      * intros [post Hp]. injection Hp as -> ->. split.
        -- apply Ascii.eqb_refl.
        -- now exists post.
Qed.

Lemma includes_empty (t : string) :
  includes "" t = startsWith "" t.
Proof. simpl. apply orb_false_r. Qed.

Lemma includes_String (c : ascii) (s t : string) :
  includes (String c s) t = startsWith (String c s) t || includes s t.
Proof. reflexivity. Qed.

Lemma includes_Substring (s t : string) :
  includes s t = true <-> Substring t s.
Proof.
  unfold Substring. induction s as [|c s IH].
  - rewrite includes_empty, startsWith_prefix. split.
    + intros [post Hp]. now exists EmptyString, post.
    + intros [pre [post Hp]]. destruct pre as [|a pre]; [|discriminate].
      now exists post.
  - rewrite includes_String, orb_true_iff, startsWith_prefix, IH. split.
    + intros [[post Hp] | [pre [post Hp]]].
      * now exists EmptyString, post.
      * exists (String c pre), post. simpl. now rewrite Hp.
    + intros [pre [post Hp]]. destruct pre as [|a pre]; simpl in Hp.
      * left. now exists post.
      * right. injection Hp as _ Hp. now exists pre, post.
Qed.

Lemma isEmpty_true (s : string) : isEmpty s = true <-> s = EmptyString.
Proof. destruct s; simpl; split; congruence. Qed.

Lemma truthy_false (s : string) : truthy s = false <-> s = "".
Proof. unfold truthy. destruct s; simpl; split; congruence. Qed.

Lemma truthy_true (s : string) : truthy s = true <-> s <> "".
Proof. unfold truthy. destruct s; simpl; split; congruence. Qed.

Lemma filter_all {A : Type} (p : A -> bool) (l : list A) :
  (forall x, p x = true) -> List.filter p l = l.
Proof.
  intros Hp. induction l as [|x l IH]; simpl; [reflexivity|].
  now rewrite Hp, IH.
Qed.

End StringFacts.

(** ** The filter step *)

Section FilterStep.

Lemma matchesQuery_Matches (query : string) (b : Book.t) :
  matchesQuery query b = true <-> Matches query b.
Proof.
  unfold matchesQuery, Matches.
  rewrite !orb_true_iff, !includes_Substring. tauto.
Qed.

Lemma filteredBooks_subsequence (books : list Book.t) (q : string) :
  sublist (filteredBooks books q) books.
Proof.
  unfold filteredBooks. destruct (negb _); [reflexivity|].
  induction books as [|b books IH]; simpl; [constructor|].
  destruct (matchesQuery _ b); now constructor.
Qed.

Lemma filteredBooks_filter (books : list Book.t) (q : string) :
  exists p : Book.t -> bool,
    (forall b, p b = true <-> trim q = "" \/ Matches (toLowerCase q) b)
    /\ filteredBooks books q = List.filter p books.
Proof.
  unfold filteredBooks, truthy. rewrite negb_involutive.
  destruct (isEmpty (trim q)) eqn:E.
  - apply isEmpty_true in E. exists (fun _ => true). split.
    + intros b. split; auto.
    + symmetry. now apply filter_all.
  - assert (Hne : trim q <> "") by (intros Hq; apply isEmpty_true in Hq; congruence).
    exists (matchesQuery (toLowerCase q)). split; [|reflexivity].
    intros b. rewrite matchesQuery_Matches. tauto.
Qed.

End FilterStep.

(** C2, the claim as stated, fails: with the query ["a "] the trimmed,
    lower-cased query ["a"] occurs in the title ["a"], so the item belongs
    to the subsequence the claim describes, and the filter step drops it,
    because it matches the query with its trailing blank. *)
Lemma C2_trimmed_query_counterexample :
  filteredBooks [plainBook "a" "x" "y"] "a " = []
  /\ filterStep_spec [plainBook "a" "x" "y"] "a " = [plainBook "a" "x" "y"]
  /\ Matches (toLowerCase (trim "a ")) (plainBook "a" "x" "y").
Proof.
  split; [reflexivity|]. split; [reflexivity|].
  apply matchesQuery_Matches. reflexivity.
Qed.

(** C2, amended: unless the trimmed query is empty, the filter step
    returns exactly the subsequence of the items of which the lower-cased
    title, author or genre contains the lower-cased query (not trimmed) as
    a substring; when the trimmed query is empty, the output is the input
    in its order. *)
Theorem C2_filter_step (books : list Book.t) (q : string) :
  (trim q <> "" ->
   exists p : Book.t -> bool,
     (forall b, p b = true <-> Matches (toLowerCase q) b)
     /\ filteredBooks books q = List.filter p books)
  /\ (trim q = "" -> filteredBooks books q = books)
  /\ sublist (filteredBooks books q) books.
Proof.
  pose proof (filteredBooks_subsequence books q) as Hs. revert Hs.
  unfold filteredBooks, truthy. rewrite negb_involutive.
  destruct (isEmpty (trim q)) eqn:E; intros Hs.
  - apply isEmpty_true in E. split; [|split].
    + intros Hne. contradiction.
    + reflexivity.
    + exact Hs.
  - assert (Hne : trim q <> "") by (intros H; apply isEmpty_true in H; congruence).
    split; [|split].
    + intros _. exists (matchesQuery (toLowerCase q)). split; [|reflexivity].
      intros b. apply matchesQuery_Matches.
    + intros H. contradiction.
    + exact Hs.
Qed.

(** ** The paginate step *)

Section Paginate.

Implicit Types (sorted : list Book.t) (p : Z).

Lemma totalPages_div sorted :
  totalPages sorted = (Z.of_nat (length sorted) + 11) / 12.
Proof.
  unfold totalPages, ITEMS_PER_PAGE, Qceiling, Qfloor, Qdiv, Qinv, Qmult, Qopp, inject_Z.
  simpl Qnum. simpl Qden. change (Z.pos (1 * 12)) with 12.
  rewrite Z.mul_1_r. generalize (Z.of_nat (length sorted)); intros n.
  pose proof (Z.div_mod (- n) 12 ltac:(lia)) as H1.
  pose proof (Z.mod_pos_bound (- n) 12 ltac:(lia)) as H2.
  pose proof (Z.div_mod (n + 11) 12 ltac:(lia)) as H3.
  pose proof (Z.mod_pos_bound (n + 11) 12 ltac:(lia)) as H4.
  lia.
Qed.

Lemma firstn_min {A : Type} (n : nat) (l : list A) :
  firstn (Nat.min n (length l)) l = firstn n l.
Proof.
  destruct (Nat.le_gt_cases n (length l)) as [Hle | Hgt].
  - now rewrite Nat.min_l.
  - rewrite Nat.min_r by lia. rewrite !firstn_all2; auto; lia.
Qed.

Lemma firstn_plus {A : Type} (a b : nat) (l : list A) :
  firstn (a + b) l = firstn a l ++ firstn b (skipn a l).
Proof.
  revert l; induction a as [|a IH]; intros l; [reflexivity|].
  destruct l as [|x l]; simpl.
  - now rewrite firstn_nil.
  - now rewrite IH.
Qed.

(** A page at or after the first is the window of twelve items that
    starts [(p - 1) * 12] items into the sequence. *)
Lemma paginatedBooks_window sorted p :
  1 <= p ->
  paginatedBooks sorted p = firstn 12 (skipn (Z.to_nat ((p - 1) * 12)) sorted).
Proof.
  intros Hp. unfold paginatedBooks, slice, relativeIndex, ITEMS_PER_PAGE.
  set (start := (p - 1) * 12). set (len := Z.of_nat (length sorted)).
  assert (Hs : 0 <= start) by (unfold start; lia).
  destruct (start <? 0) eqn:E1; [lia|].
  destruct (start + 12 <? 0) eqn:E2; [lia|].
  destruct (Z.le_gt_cases len start) as [Hge | Hlt].
  - rewrite (Z.min_r start), (Z.min_r (start + 12)), Z.sub_diag by lia.
    rewrite (skipn_all2 (n := Z.to_nat start)) by (unfold len in *; lia).
    now rewrite firstn_nil.
  - rewrite (Z.min_l start) by lia.
    rewrite <- (firstn_min 12). rewrite length_skipn. f_equal.
    unfold len in *. lia.
Qed.

Lemma pages_concat {A : Type} (l : list A) (m : nat) :
  concat (map (fun i => firstn 12 (skipn (i * 12) l)) (seq 0 m)) = firstn (m * 12) l.
Proof.
  induction m as [|m IH]; [reflexivity|].
  rewrite seq_S, map_app, concat_app, IH.
  replace (S m * 12)%nat with (m * 12 + 12)%nat by lia.
  rewrite firstn_plus. f_equal. simpl. apply app_nil_r.
Qed.

Lemma totalPages_bounds sorted :
  12 * (totalPages sorted - 1) < Z.of_nat (length sorted) <= 12 * totalPages sorted.
Proof.
  rewrite totalPages_div. generalize (Z.of_nat (length sorted)); intros n.
  pose proof (Z.div_mod (n + 11) 12 ltac:(lia)) as H1.
  pose proof (Z.mod_pos_bound (n + 11) 12 ltac:(lia)) as H2.
  lia.
Qed.

Lemma length_insertBy {A : Type} (cmp : A -> A -> Q) (x : A) (l : list A) :
  length (insertBy cmp x l) = S (length l).
Proof.
  induction l as [|y l IH]; simpl; [reflexivity|].
  destruct (isPositive _); simpl; congruence.
Qed.

Lemma length_arraySort {A : Type} (cmp : A -> A -> Q) (l : list A) :
  length (arraySort cmp l) = length l.
Proof.
  induction l as [|x l IH]; simpl; [reflexivity|].
  now rewrite length_insertBy, IH.
Qed.

End Paginate.

(** C1, the claim as stated, fails: with no books the filtered count is 0
    and the pipeline computes 0 total pages, where
    max(1, ceil(0 / 12)) is 1. *)
Lemma C1_empty_counterexample :
  viewTotalPages (@derivedView codeUnit [] "" "title" 1) = 0
  /\ length (viewFiltered (@derivedView codeUnit [] "" "title" 1)) = 0%nat
  /\ viewTotalPages (@derivedView codeUnit [] "" "title" 1)
     <> Z.max 1 (Qceiling (0 / inject_Z 12)).
Proof. repeat split. discriminate. Qed.

(** C1, amended: for every raw collection, query and sort key the total
    page count is ceil(filteredCount / 12), that is, the least integer
    whose twelvefold is at least the filtered count; it is
    max(1, ceil(filteredCount / 12)) when the filtered count is not 0, and
    it is 0 when the filtered count is 0. *)
Theorem C1_total_pages `{Collation} (books : list Book.t) (q sortBy : string) (page : Z) :
  let v := derivedView books q sortBy page in
  let filteredCount := Z.of_nat (length (viewFiltered v)) in
  viewTotalPages v = Qceiling (inject_Z filteredCount / inject_Z 12)
  /\ 12 * (viewTotalPages v - 1) < filteredCount <= 12 * viewTotalPages v
  /\ viewTotalPages v
     = (if filteredCount =? 0 then 0
        else Z.max 1 (Qceiling (inject_Z filteredCount / inject_Z 12))).
Proof.
  intros v filteredCount.
  assert (Hlen : length (viewSorted v) = length (viewFiltered v)).
  { unfold v, derivedView, sortedBooks; simpl. apply length_arraySort. }
  assert (Htp : viewTotalPages v = totalPages (viewSorted v)) by reflexivity.
  assert (Hq : viewTotalPages v = Qceiling (inject_Z filteredCount / inject_Z 12)).
  { rewrite Htp. unfold totalPages, filteredCount. now rewrite Hlen. }
  pose proof (totalPages_bounds (viewSorted v)) as Hb.
  rewrite <- Htp, Hlen in Hb. fold filteredCount in Hb.
  split; [exact Hq|]. split; [exact Hb|].
  rewrite <- Hq. destruct (filteredCount =? 0) eqn:E; lia.
Qed.

(** C7: a page number is 1-based.  For every sorted sequence and page p,
    the slice for page p holds exactly the elements at the indices
    [(p-1)*12, p*12) of the sequence, in their order, and the slices of
    the pages 1 to totalPages, one after the other, are the sorted
    sequence itself: each item once, at its place. *)
Theorem C7_pages_partition (sorted : list Book.t) :
  (forall (p : positive) (i : nat),
      paginatedBooks sorted (Z.pos p) !! i
      = if (i <? 12)%nat
        then sorted !! (Z.to_nat ((Z.pos p - 1) * 12) + i)%nat
        else None)
  /\ concat (map (paginatedBooks sorted) (pageNumbers (totalPages sorted))) = sorted.
Proof.
  split.
  - intros p i. rewrite paginatedBooks_window by lia.
    destruct (i <? 12)%nat eqn:E.
    + apply Nat.ltb_lt in E. rewrite lookup_take_lt by lia. apply lookup_drop.
    + apply Nat.ltb_ge in E. apply lookup_take_ge. lia.
  - unfold pageNumbers. rewrite map_map.
    rewrite (map_ext _ (fun i => firstn 12 (skipn (i * 12) sorted))).
    + rewrite pages_concat. apply firstn_all2.
      pose proof (totalPages_bounds sorted). lia.
    + intros i. rewrite paginatedBooks_window by lia. do 2 f_equal. lia.
Qed.

(** C8, the claim as stated, fails: thirteen books and page -1.  The slice
    runs from index -24 to index -12, both counted from the end of the
    array, and holds the first book. *)
Lemma C8_negative_page_counterexample :
  paginatedBooks (repeat (plainBook "a" "x" "y") 13) (-1) = [plainBook "a" "x" "y"]
  /\ totalPages (repeat (plainBook "a" "x" "y") 13) = 2
  /\ paginatedBooks (repeat (plainBook "a" "x" "y") 13) (-1) <> [].
Proof. repeat split. discriminate. Qed.

(** C8, amended: the paginate step is defined at every page number, so it
    raises nothing.  At an out-of-range page number p the slice is empty
    when p is 0 or above totalPages; when p is below 0 the slice is empty
    exactly when the sequence has at most 12 * (-p) items. *)
Theorem C8_out_of_range_page (sorted : list Book.t) (p : Z) :
  p < 1 \/ totalPages sorted < p ->
  (paginatedBooks sorted p = []
   <-> (p < 0 -> Z.of_nat (length sorted) <= 12 * - p)).
Proof.
  intros Hout.
  destruct (Z.le_gt_cases 1 p) as [Hp | Hp].
  - split; [lia|]. intros _. rewrite paginatedBooks_window by lia.
    rewrite skipn_all2; [apply firstn_nil|].
    pose proof (totalPages_bounds sorted). lia.
  - unfold paginatedBooks, slice, relativeIndex, ITEMS_PER_PAGE.
    set (len := Z.of_nat (length sorted)).
    assert (Hlen : 0 <= len) by (unfold len; lia).
    destruct ((p - 1) * 12 <? 0) eqn:E1; [|lia].
    destruct (Z.eq_dec p 0) as [-> | Hp0].
    + simpl. rewrite Z.min_l by lia. split; [lia|]. intros _.
      replace (Z.to_nat _) with 0%nat by lia. reflexivity.
    + destruct ((p - 1) * 12 + 12 <? 0) eqn:E2; [|lia].
      split.
      * intros Hnil Hneg. apply (f_equal (@length _)) in Hnil.
        rewrite length_firstn, length_skipn in Hnil. simpl in Hnil.
        fold len in Hnil. unfold len in *. lia.
      * intros Hsmall. rewrite (Z.max_r (len + ((p - 1) * 12 + 12))) by lia.
        replace (Z.to_nat (0 - _)) with 0%nat by lia. reflexivity.
Qed.

Lemma C8_out_of_range_page_witness :
  paginatedBooks (repeat (plainBook "a" "x" "y") 13) 3 = []
  <-> (3 < 0 -> Z.of_nat (length (repeat (plainBook "a" "x" "y") 13)) <= 12 * - 3).
Proof.
  apply (C8_out_of_range_page (repeat (plainBook "a" "x" "y") 13) 3).
  right. vm_compute. reflexivity.
Defined.

(** ** The sort step *)

Section ArraySort.

Context {A : Type} (cmp : A -> A -> Q).

Lemma isPositive_spec (q : Q) : isPositive q = true <-> (0 < q)%Q.
Proof.
  unfold isPositive, Qlt. simpl. rewrite Z.ltb_lt. lia.
Qed.

Lemma insertBy_perm (x : A) (l : list A) : insertBy cmp x l ≡ₚ x :: l.
Proof.
  induction l as [|y l IH]; simpl; [reflexivity|].
  destruct (isPositive _); [|reflexivity].
  rewrite IH. apply Permutation_swap.
Qed.

Lemma arraySort_perm (l : list A) : arraySort cmp l ≡ₚ l.
Proof.
  induction l as [|x l IH]; simpl; [reflexivity|].
  now rewrite insertBy_perm, IH.
Qed.

(** Sortedness, for a comparator that orders by a numeric key,
    greatest first. *)
Section Descending.

Variable key : A -> Q.
Hypothesis cmp_key : forall x y, isPositive (cmp x y) = true <-> (key x < key y)%Q.

Let desc (a b : A) : Prop := (key b <= key a)%Q.

Lemma insertBy_descending (x : A) (l : list A) :
  StronglySorted desc l -> StronglySorted desc (insertBy cmp x l).
Proof.
  induction 1 as [|y l Hl IH Hy]; simpl.
  - repeat constructor.
  - destruct (isPositive (cmp x y)) eqn:E.
    + apply cmp_key in E. constructor; [exact IH|].
      rewrite insertBy_perm. constructor; [|exact Hy].
      unfold desc. now apply Qlt_le_weak.
    + assert (Hxy : desc x y).
      { unfold desc. apply Qnot_lt_le. intros Hlt.
        apply cmp_key in Hlt. congruence. }
      constructor; [now constructor|].
      constructor; [exact Hxy|].
      eapply List.Forall_impl; [|exact Hy].
      intros z Hz. unfold desc in *. eapply Qle_trans; eassumption.
Qed.

Lemma arraySort_descending (l : list A) : StronglySorted desc (arraySort cmp l).
Proof.
  induction l as [|x l IH]; simpl; [constructor|].
  now apply insertBy_descending.
Qed.

End Descending.

(** Stability: a class of items that compare equal with one another
    keeps its order. *)
Section Stable.

Variable P : A -> bool.
Hypothesis P_equal : forall a b, P a = true -> P b = true -> (cmp a b == 0)%Q.

Lemma insertBy_stable (x : A) (l : list A) :
  List.filter P (insertBy cmp x l) = List.filter P (x :: l).
Proof.
  induction l as [|y l IH]; [reflexivity|].
  simpl insertBy. destruct (isPositive (cmp x y)) eqn:E; [|reflexivity].
  apply isPositive_spec in E.
  simpl in *. rewrite IH.
  destruct (P x) eqn:Hx, (P y) eqn:Hy; try reflexivity.
  exfalso. rewrite (P_equal x y Hx Hy) in E. now apply Qlt_irrefl in E.
Qed.

Lemma arraySort_stable (l : list A) :
  List.filter P (arraySort cmp l) = List.filter P l.
Proof.
  induction l as [|x l IH]; [reflexivity|].
  simpl arraySort. rewrite insertBy_stable. simpl. now rewrite IH.
Qed.

End Stable.

End ArraySort.

Section SortStep.

Context `{Collation}.

Lemma compareFn_rating (a b : Book.t) :
  isPositive (compareFn "rating" a b) = true <-> (ratingOr0 a < ratingOr0 b)%Q.
Proof.
  unfold compareFn. simpl. rewrite isPositive_spec.
  rewrite (Qlt_minus_iff (ratingOr0 a)). reflexivity.
Qed.

Lemma compareFn_year (a b : Book.t) :
  isPositive (compareFn "publishedYear" a b) = true
  <-> (inject_Z (yearOr0 a) < inject_Z (yearOr0 b))%Q.
Proof.
  unfold compareFn. simpl. rewrite isPositive_spec, <- Zlt_Qlt.
  change 0%Q with (inject_Z 0). rewrite <- Zlt_Qlt. lia.
Qed.

End SortStep.

(** C5: for every filtered sequence, sorting with key 'rating' gives a
    sequence in which no item has a greater rating than an item before it,
    and sorting with key 'publishedYear' one in which no item has a greater
    year than an item before it, where the rating or year of an item is
    the value of its field and 0 when the field is absent; both are
    rearrangements of the filtered sequence. *)
Theorem C5_numeric_keys_descending `{Collation} (filtered : list Book.t) :
  StronglySorted
    (fun a b =>
       (match Book.rating b with Some r => r | None => 0 end
        <= match Book.rating a with Some r => r | None => 0 end)%Q)
    (sortedBooks filtered "rating")
  /\ StronglySorted
       (fun a b =>
          match Book.publishedYear b with Some y => y | None => 0 end
          <= match Book.publishedYear a with Some y => y | None => 0 end)
       (sortedBooks filtered "publishedYear")
  /\ sortedBooks filtered "rating" ≡ₚ filtered
  /\ sortedBooks filtered "publishedYear" ≡ₚ filtered.
Proof.
  unfold sortedBooks. split; [|split; [|split]].
  - pose proof (arraySort_descending (compareFn "rating") ratingOr0
                  compareFn_rating filtered) as Hs.
    induction Hs as [|x l Hl IH Hx]; constructor; [exact IH|].
    eapply List.Forall_impl; [|exact Hx]. intros z Hz.
    unfold ratingOr0 in Hz. destruct (Book.rating z), (Book.rating x); exact Hz.
  - pose proof (arraySort_descending (compareFn "publishedYear")
                  (fun b => inject_Z (yearOr0 b)) compareFn_year filtered) as Hs.
    induction Hs as [|x l Hl IH Hx]; constructor; [exact IH|].
    eapply List.Forall_impl; [|exact Hx]. intros z Hz. simpl in Hz.
    rewrite <- Zle_Qle in Hz. unfold yearOr0 in Hz.
    destruct (Book.publishedYear z), (Book.publishedYear x); exact Hz.
  - apply arraySort_perm.
  - apply arraySort_perm.
Qed.

Section SortStepStore.

Context `{Collation}.

Lemma spread_fresh (r : nat) (h : heap) (l : list Book.t) :
  h !! r = Some l ->
  exists r', spread r h = Some (r', <[r' := l]> h) /\ h !! r' = None /\ r' <> r.
Proof.
  intros Hr. unfold spread. rewrite Hr.
  assert (Hf : h !! fresh (dom h) = None).
  { apply not_elem_of_dom, is_fresh. }
  exists (fresh (dom h)). repeat split; [exact Hf|].
  intros Heq. rewrite Heq in Hf. congruence.
Qed.

Lemma sortedBooksRef_result (filtered : nat) (sortBy : string) (h : heap)
    (l : list Book.t) :
  h !! filtered = Some l ->
  exists sorted h',
    sortedBooksRef filtered sortBy h = Some (sorted, h')
    /\ h !! sorted = None
    /\ h' !! sorted = Some (sortedBooks l sortBy)
    /\ forall r, r <> sorted -> h' !! r = h !! r.
Proof.
  intros Hr. destruct (spread_fresh filtered h l Hr) as (r' & Hs & Hnone & Hne).
  unfold sortedBooksRef. rewrite Hs.
  exists r', (sortInPlace (compareFn sortBy) r' (<[r' := l]> h)).
  unfold sortInPlace. repeat split; [exact Hnone | |].
  - now rewrite lookup_alter_eq, lookup_insert_eq.
  - intros r Hrr. rewrite lookup_alter_ne, lookup_insert_ne by congruence.
    reflexivity.
Qed.

End SortStepStore.

(** C6: for every input and sort key the sort step returns a new array and
    leaves its input, and every other array, as it was; the new array holds
    a rearrangement of the input, and the sort is stable: the items of any
    class whose members compare equal with one another stand in the output
    in the order they have in the filtered input. *)
Theorem C6_sort_fresh_and_stable `{Collation}
    (sortBy : string) (filtered : nat) (h : heap) (l : list Book.t) :
  h !! filtered = Some l ->
  exists sorted h',
    sortedBooksRef filtered sortBy h = Some (sorted, h')
    /\ h !! sorted = None
    /\ h' !! filtered = Some l
    /\ (forall r, r <> sorted -> h' !! r = h !! r)
    /\ h' !! sorted = Some (sortedBooks l sortBy)
    /\ sortedBooks l sortBy ≡ₚ l
    /\ forall P : Book.t -> bool,
        (forall a b, P a = true -> P b = true -> (compareFn sortBy a b == 0)%Q) ->
        List.filter P (sortedBooks l sortBy) = List.filter P l.
Proof.
  intros Hr.
  destruct (sortedBooksRef_result filtered sortBy h l Hr)
    as (sorted & h' & Hrun & Hnew & Hres & Hframe).
  exists sorted, h'. split; [exact Hrun|]. split; [exact Hnew|].
  split; [|split; [exact Hframe|split; [exact Hres|split]]].
  - rewrite Hframe; [exact Hr|]. intros ->. congruence.
  - apply arraySort_perm.
  - intros P HP. now apply arraySort_stable.
Qed.

Lemma C6_sort_fresh_and_stable_witness :
  exists sorted h',
    @sortedBooksRef codeUnit 0%nat "rating"
      {[ 0%nat := [plainBook "b" "x" "y"; plainBook "a" "x" "y"] ]} = Some (sorted, h')
    /\ ({[ 0%nat := [plainBook "b" "x" "y"; plainBook "a" "x" "y"] ]} : heap) !! sorted = None
    /\ h' !! 0%nat = Some [plainBook "b" "x" "y"; plainBook "a" "x" "y"]
    /\ (forall r, r <> sorted ->
        h' !! r = ({[ 0%nat := [plainBook "b" "x" "y"; plainBook "a" "x" "y"] ]} : heap) !! r)
    /\ h' !! sorted
       = Some (@sortedBooks codeUnit [plainBook "b" "x" "y"; plainBook "a" "x" "y"] "rating")
    /\ @sortedBooks codeUnit [plainBook "b" "x" "y"; plainBook "a" "x" "y"] "rating"
       ≡ₚ [plainBook "b" "x" "y"; plainBook "a" "x" "y"]
    /\ forall P : Book.t -> bool,
        (forall a b, P a = true -> P b = true ->
                     (@compareFn codeUnit "rating" a b == 0)%Q) ->
        List.filter P (@sortedBooks codeUnit [plainBook "b" "x" "y"; plainBook "a" "x" "y"] "rating")
        = List.filter P [plainBook "b" "x" "y"; plainBook "a" "x" "y"].
Proof.
  apply (@C6_sort_fresh_and_stable codeUnit "rating" 0%nat
           {[ 0%nat := [plainBook "b" "x" "y"; plainBook "a" "x" "y"] ]}
           [plainBook "b" "x" "y"; plainBook "a" "x" "y"]).
  reflexivity.
Defined.

(** ** The detail page: submitting a review *)

Section ReviewSubmit.

Variable env : Backend.

(** The handler itself does not look at the comment: called with a book
    and a user, it sends whatever the comment field holds. *)
Lemma handleReviewSubmit_calls (st : DetailState) (bk : Book.t) (u : string) :
  book st = Some bk -> userId st = Some u -> u <> "" ->
  exists rest,
    handleReviewSubmit env st
    = SetIsSubmittingReview true
      :: CreateReview (Book.id bk) u (newRating (newReview st)) (newComment (newReview st))
      :: rest.
Proof.
  intros Hb Hu Hne. unfold handleReviewSubmit. rewrite Hb, Hu. simpl.
  destruct u as [|c u]; [congruence|]. simpl. eexists. reflexivity.
Qed.

End ReviewSubmit.

(** C3: in every state in which the comment field is empty, submitting the
    review does nothing: the Submit Review button is disabled, the handler
    does not run, and no backend call is made, [createReview] least of
    all. *)
Theorem C3_empty_comment_no_call (env : Backend) (st : DetailState) :
  newComment (newReview st) = "" ->
  submitReviewButton env st = []
  /\ backendCalls (submitReviewButton env st) = []
  /\ run st (submitReviewButton env st) = st.
Proof.
  intros Hc. unfold submitReviewButton, Button.
  apply truthy_false in Hc. rewrite Hc. simpl. repeat split.
Qed.

Lemma C3_empty_comment_no_call_witness :
  submitReviewButton sampleEnv (sampleState "l1" [] "") = []
  /\ backendCalls (submitReviewButton sampleEnv (sampleState "l1" [] "")) = []
  /\ run (sampleState "l1" [] "") (submitReviewButton sampleEnv (sampleState "l1" [] ""))
     = sampleState "l1" [] "".
Proof.
  apply (C3_empty_comment_no_call sampleEnv (sampleState "l1" [] "")).
  reflexivity.
Defined.

(** ** The detail page: adding to a reading list *)

Section ConfirmAdd.

Variable env : Backend.



Lemma handleConfirmAdd_not_found (st : DetailState) :
  findList (readingLists st) (selectedListId st) = None ->
  handleConfirmAdd env st = []
  \/ handleConfirmAdd env st = [SetIsUpdating true; SetIsUpdating false].
Proof.
  intros Hfind. unfold handleConfirmAdd. rewrite Hfind.
  destruct (book st); [|now left].
  destruct (negb _); [now left | now right].
Qed.

End ConfirmAdd.



(** C9: when the selected list identifier matches none of the loaded
    reading lists, confirming the addition makes no backend call; it sets
    nothing but the isUpdating flag, to true and back to false, so the
    reading lists and the modal state are as before, and so is the whole
    state when the flag was off, as it is whenever the Confirm button is
    enabled. *)
Theorem C9_unknown_list_no_update (env : Backend) (st : DetailState) :
  findList (readingLists st) (selectedListId st) = None ->
  let tr := handleConfirmAdd env st in
  backendCalls tr = []
  /\ (tr = [] \/ tr = [SetIsUpdating true; SetIsUpdating false])
  /\ readingLists (run st tr) = readingLists st
  /\ isModalOpen (run st tr) = isModalOpen st
  /\ selectedListId (run st tr) = selectedListId st
  /\ (isUpdating st = false -> run st tr = st).
Proof.
  intros Hfind tr.
  destruct (handleConfirmAdd_not_found env st Hfind) as [E | E];
    unfold tr; rewrite E; destruct st; simpl; repeat split; auto.
  intros ->. reflexivity.
Qed.

Lemma C9_unknown_list_no_update_witness :
  backendCalls (handleConfirmAdd sampleEnv
                  (sampleState "l9" [ReadingList.mk "l1" "Mine" None] "")) = [].
Proof.
  apply (C9_unknown_list_no_update sampleEnv
           (sampleState "l9" [ReadingList.mk "l1" "Mine" None] "")).
  reflexivity.
Defined.



(** ** Scenarios *)

(** Fourteen books, no query: twelve on page 1, two on page 2, two pages,
    and nothing on page 3. *)
Example fourteen_books_two_pages :
  let v p := @derivedView codeUnit (repeat (plainBook "a" "x" "y") 14) "" "title" p in
  (length (viewPage (v 1)), length (viewPage (v 2)), length (viewPage (v 3)),
   viewTotalPages (v 1))
  = (12%nat, 2%nat, 0%nat, 2).
Proof. reflexivity. Qed.

(** The match ignores case, and a query of blanks filters nothing. *)
Example filter_ignores_case :
  map Book.title
      (filteredBooks [plainBook "The Hobbit" "Tolkien" "Fantasy";
                      plainBook "Dune" "Herbert" "SciFi"] "TOLK")
  = ["The Hobbit"]
  /\ map Book.title
         (filteredBooks [plainBook "The Hobbit" "Tolkien" "Fantasy";
                         plainBook "Dune" "Herbert" "SciFi"] "   ")
     = ["The Hobbit"; "Dune"].
Proof. split; reflexivity. Qed.

(** Titles that differ only in case compare equal and keep their order. *)
Example sort_by_title_keeps_ties :
  map Book.title
      (@sortedBooks codeUnit [plainBook "b" "x" "y"; plainBook "A" "x" "y";
                              plainBook "c" "x" "y"; plainBook "a" "x" "y"] "title")
  = ["A"; "a"; "b"; "c"].
Proof. reflexivity. Qed.

(** ** The catalog page controller *)

Section CatalogController.

Context `{Collation}.

Lemma length_sortedBooks (l : list Book.t) (key : string) :
  length (sortedBooks l key) = length l.
Proof. apply length_arraySort. Qed.

Lemma view_totalPages (st : Catalog.state) :
  viewTotalPages (Catalog.view st)
  = totalPages (filteredBooks (Catalog.books st) (Catalog.searchQuery st)).
Proof.
  unfold Catalog.view, derivedView, totalPages. cbn [viewTotalPages].
  now rewrite length_sortedBooks.
Qed.

Lemma pageNumbers_spec (n page : Z) :
  existsb (Z.eqb page) (pageNumbers n) = true <-> 1 <= page <= n.
Proof.
  unfold pageNumbers. rewrite existsb_exists. split.
  - intros (x & Hin & Hx). apply Z.eqb_eq in Hx as <-.
    apply in_map_iff in Hin as (i & <- & Hi). apply in_seq in Hi. lia.
  - intros Hp. exists page. split; [|apply Z.eqb_refl].
    apply in_map_iff. exists (Z.to_nat (page - 1)). split; [lia|].
    apply in_seq. lia.
Qed.

Lemma length_paginatedBooks (sorted : list Book.t) (p : Z) :
  1 <= p ->
  Z.of_nat (length (paginatedBooks sorted p))
  = Z.max 0 (Z.min 12 (Z.of_nat (length sorted) - 12 * (p - 1))).
Proof.
  intros Hp. rewrite paginatedBooks_window by lia.
  rewrite length_firstn, length_skipn. lia.
Qed.

Lemma filteredBooks_nil (q : string) : filteredBooks [] q = [].
Proof. unfold filteredBooks. now destruct (negb _). Qed.

Lemma slice_sublist {A : Type} (l : list A) (start stop : Z) :
  sublist (slice l start stop) l.
Proof.
  unfold slice. etransitivity; [apply sublist_take | apply sublist_drop].
Qed.

Lemma view_page_submseteq (books : list Book.t) (q key : string) (p : Z) :
  viewPage (derivedView books q key p) ⊆+ filteredBooks books q.
Proof.
  unfold derivedView, paginatedBooks. cbn [viewPage].
  etransitivity; [apply sublist_submseteq, slice_sublist|].
  unfold sortedBooks. now rewrite arraySort_perm.
Qed.

Lemma filteredBooks_In (books : list Book.t) (q : string) (b : Book.t) :
  In b (filteredBooks books q)
  <-> In b books /\ (trim q = "" \/ Matches (toLowerCase q) b).
Proof.
  destruct (filteredBooks_filter books q) as (p & Hp & Hf).
  rewrite Hf, filter_In, Hp. reflexivity.
Qed.

End CatalogController.

Lemma catalog_invariant `{Collation} (st : Catalog.state) :
  Catalog.reachable st ->
  Catalog.isLoading st = false
  /\ In (Catalog.sortBy st) Catalog.sortOptions
  /\ 1 <= Catalog.currentPage st
  /\ (Catalog.currentPage st = 1
      \/ Catalog.currentPage st <= viewTotalPages (Catalog.view st)).
Proof.
  induction 1 as [answer | st a Hr IH].
  - cbn. repeat split; auto. lia.
  - destruct IH as (Hload & Hsort & Hlow & Hup).
    unfold Catalog.step. destruct (Catalog.offered st a) eqn:Hoff;
      [|repeat split; assumption].
    unfold Catalog.offered in Hoff. rewrite Hload in Hoff. cbn [negb andb] in Hoff.
    rewrite view_totalPages in *.
    destruct a as [query | value | | | page]; cbn [Catalog.handle].
    + unfold Catalog.handleSearch. rewrite ?view_totalPages.
      cbn. repeat split; auto. lia.
    + unfold Catalog.handleSort. rewrite ?view_totalPages. cbn.
      apply existsb_exists in Hoff as (x & Hin & Hx).
      apply String.eqb_eq in Hx as ->. repeat split; auto. lia.
    + unfold Catalog.previousPage. rewrite ?view_totalPages. cbn.
      apply andb_true_iff in Hoff as [Htp Hne]. apply Z.ltb_lt in Htp.
      repeat split; auto; lia.
    + unfold Catalog.nextPage. rewrite ?view_totalPages. cbn.
      apply andb_true_iff in Hoff as [Htp Hne]. apply Z.ltb_lt in Htp.
      repeat split; auto; lia.
    + unfold Catalog.goToPage. rewrite ?view_totalPages. cbn.
      apply andb_true_iff in Hoff as [Htp Hin].
      apply pageNumbers_spec in Hin. repeat split; auto; lia.
Qed.



(** X2: a page in the range 1..totalPages is never empty and never holds
    more than twelve books; every page before the last holds exactly
    twelve, and the last one holds the rest. *)
Theorem X2_page_sizes (sorted : list Book.t) (p : Z) :
  1 <= p <= totalPages sorted ->
  1 <= Z.of_nat (length (paginatedBooks sorted p)) <= 12
  /\ (p < totalPages sorted -> length (paginatedBooks sorted p) = 12%nat)
  /\ (p = totalPages sorted ->
      Z.of_nat (length (paginatedBooks sorted p))
      = Z.of_nat (length sorted) - 12 * (p - 1)).
Proof.
  intros Hp. pose proof (totalPages_bounds sorted) as Hb.
  rewrite length_paginatedBooks by lia.
  split; [lia|]. split.
  - intros Hlt. apply Nat2Z.inj. rewrite length_paginatedBooks by lia. lia.
  - intros ->. lia.
Qed.

Lemma X2_page_sizes_witness :
  1 <= Z.of_nat (length (paginatedBooks (repeat (plainBook "a" "x" "y") 14) 2)) <= 12
  /\ (2 < totalPages (repeat (plainBook "a" "x" "y") 14) ->
      length (paginatedBooks (repeat (plainBook "a" "x" "y") 14) 2) = 12%nat)
  /\ (2 = totalPages (repeat (plainBook "a" "x" "y") 14) ->
      Z.of_nat (length (paginatedBooks (repeat (plainBook "a" "x" "y") 14) 2))
      = Z.of_nat (length (repeat (plainBook "a" "x" "y") 14)) - 12 * (2 - 1)).
Proof.
  apply (X2_page_sizes (repeat (plainBook "a" "x" "y") 14) 2).
  vm_compute. split; discriminate.
Defined.



(** X4: whatever the page number, the books on the page are taken from the
    raw collection, none more often than it occurs there, and each of them
    passes the filter; the count shown before "of" is at most the count
    shown after it, which is at most the size of the collection. *)
Theorem X4_displayed_books `{Collation}
    (books : list Book.t) (q key : string) (p : Z) :
  let v := derivedView books q key p in
  viewPage v ⊆+ books
  /\ (forall b, In b (viewPage v) ->
                In b books /\ (trim q = "" \/ Matches (toLowerCase q) b))
  /\ (length (viewPage v) <= length (viewFiltered v) <= length books)%nat.
Proof.
  intros v. pose proof (view_page_submseteq books q key p) as Hsub.
  fold v in Hsub.
  pose proof (filteredBooks_subsequence books q) as Hf.
  split; [|split].
  - etransitivity; [exact Hsub | now apply sublist_submseteq].
  - intros b Hb. apply filteredBooks_In. apply list_elem_of_In.
    eapply elem_of_submseteq; [|exact Hsub]. now apply list_elem_of_In.
  - split.
    + apply submseteq_length in Hsub. exact Hsub.
    + apply sublist_length in Hf. exact Hf.
Qed.

(** X5: from a state the page reaches in which Next is offered, Next and
    then Previous lead back to the same state; and so do Previous and then
    Next where Previous is offered. *)
Theorem X5_next_previous_round_trip `{Collation} (st : Catalog.state) :
  Catalog.reachable st ->
  (Catalog.offered st Catalog.Next = true ->
   Catalog.step (Catalog.step st Catalog.Next) Catalog.Previous = st)
  /\ (Catalog.offered st Catalog.Previous = true ->
      Catalog.step (Catalog.step st Catalog.Previous) Catalog.Next = st).
Proof.
  intros Hr. destruct (catalog_invariant st Hr) as (Hload & _ & Hlow & Hup).
  rewrite view_totalPages in Hup.
  split; intros Hoff; unfold Catalog.step at 2; rewrite Hoff;
    unfold Catalog.offered in Hoff; rewrite Hload, view_totalPages in Hoff;
    cbn [negb andb] in Hoff; apply andb_true_iff in Hoff as [Htp Hne];
    apply Z.ltb_lt in Htp; apply negb_true_iff, Z.eqb_neq in Hne;
    cbn [Catalog.handle].
  - assert (Hnext : Catalog.nextPage st
                    = Catalog.mk (Catalog.books st) (Catalog.searchQuery st)
                        (Catalog.isLoading st) (Catalog.sortBy st)
                        (Catalog.currentPage st + 1)).
    { unfold Catalog.nextPage. rewrite view_totalPages. f_equal. lia. }
    rewrite Hnext. unfold Catalog.step, Catalog.offered.
    rewrite view_totalPages. cbn [Catalog.isLoading Catalog.books
      Catalog.searchQuery Catalog.currentPage]. rewrite Hload. cbn [negb andb].
    rewrite (proj2 (Z.ltb_lt _ _) Htp).
    rewrite (proj2 (Z.eqb_neq (Catalog.currentPage st + 1) 1)) by lia.
    cbn [negb andb Catalog.handle]. unfold Catalog.previousPage.
    destruct st; cbn in *; subst. f_equal. lia.
  - assert (Hprev : Catalog.previousPage st
                    = Catalog.mk (Catalog.books st) (Catalog.searchQuery st)
                        (Catalog.isLoading st) (Catalog.sortBy st)
                        (Catalog.currentPage st - 1)).
    { unfold Catalog.previousPage. f_equal. lia. }
    rewrite Hprev. unfold Catalog.step, Catalog.offered.
    rewrite view_totalPages. cbn [Catalog.isLoading Catalog.books
      Catalog.searchQuery Catalog.currentPage]. rewrite Hload. cbn [negb andb].
    rewrite (proj2 (Z.ltb_lt _ _) Htp).
    rewrite (proj2 (Z.eqb_neq (Catalog.currentPage st - 1) _)) by lia.
    cbn [negb andb Catalog.handle]. unfold Catalog.nextPage.
    rewrite view_totalPages. destruct st; cbn in *; subst. f_equal. lia.
Qed.

Lemma X5_next_previous_round_trip_witness :
  @Catalog.step codeUnit
     (@Catalog.step codeUnit (Catalog.mount (Some (repeat (plainBook "a" "x" "y") 14)))
                    Catalog.Next)
     Catalog.Previous
  = Catalog.mount (Some (repeat (plainBook "a" "x" "y") 14)).
Proof.
  apply (proj1 (@X5_next_previous_round_trip codeUnit
                  (Catalog.mount (Some (repeat (plainBook "a" "x" "y") 14)))
                  (Catalog.reach_mount _))).
  vm_compute. reflexivity.
Defined.

Section CatalogRaw.

Context `{Collation}.

Lemma step_books (st : Catalog.state) (a : Catalog.action) :
  Catalog.books (Catalog.step st a) = Catalog.books st.
Proof.
  unfold Catalog.step. destruct (Catalog.offered st a); [|reflexivity].
  now destruct a.
Qed.

Lemma steps_books (actions : list Catalog.action) (st : Catalog.state) :
  Catalog.books (fold_left Catalog.step actions st) = Catalog.books st.
Proof.
  revert st; induction actions as [|a actions IH]; intros st; [reflexivity|].
  cbn [fold_left]. now rewrite IH, step_books.
Qed.

Lemma view_of_no_books (st : Catalog.state) :
  Catalog.books st = [] ->
  viewFiltered (Catalog.view st) = []
  /\ viewPage (Catalog.view st) = []
  /\ viewTotalPages (Catalog.view st) = 0.
Proof.
  intros Hb. rewrite view_totalPages. unfold Catalog.view, derivedView.
  cbn [viewFiltered viewPage]. rewrite Hb, filteredBooks_nil.
  repeat split. unfold sortedBooks. cbn [arraySort].
  apply sublist_nil_r. apply slice_sublist.
Qed.

End CatalogRaw.

(** X6: no action of the user changes the raw collection; so after a
    rejected [getBooks], whatever the user does, the collection stays
    empty, the page shows "No matches found.", and there are no pages to
    go to. *)
Theorem X6_failed_load_stays_empty `{Collation}
    (st0 : Catalog.state) (actions : list Catalog.action) :
  Catalog.books (fold_left Catalog.step actions st0) = Catalog.books st0
  /\ (let st := fold_left Catalog.step actions (Catalog.mount None) in
      Catalog.books st = []
      /\ Catalog.renderMain st = Catalog.NoMatches
      /\ viewTotalPages (Catalog.view st) = 0
      /\ Catalog.offered st Catalog.Next = false
      /\ Catalog.offered st Catalog.Previous = false
      /\ forall page, Catalog.offered st (Catalog.GoTo page) = false).
Proof.
  split; [apply steps_books|]. intros st.
  assert (Hb : Catalog.books st = []) by (unfold st; now rewrite steps_books).
  destruct (view_of_no_books st Hb) as (Hf & Hp & Htp).
  split; [exact Hb|]. split.
  - unfold Catalog.renderMain. now rewrite Hp.
  - split; [exact Htp|]. unfold Catalog.offered. rewrite Htp.
    cbn. rewrite !andb_false_r. repeat split.
Qed.

(** ** Narrowing a search *)

Section Narrowing.

Lemma append_assoc (s t u : string) :
  String.append (String.append s t) u = String.append s (String.append t u).
Proof.
  induction s as [|c s IH]; [reflexivity|].
  exact (f_equal (String c) IH).
Qed.

Lemma Substring_trans (a b c : string) :
  Substring a b -> Substring b c -> Substring a c.
Proof.
  intros (p1 & q1 & ->) (p2 & q2 & ->).
  exists (String.append p2 p1), (String.append q1 q2).
  now rewrite !append_assoc.
Qed.

Lemma trimStart_head (s r : string) (c : ascii) :
  trimStart s = String c r -> isWhiteSpace c = false.
Proof.
  induction s as [|d s IH]; simpl; [discriminate|].
  destruct (isWhiteSpace d) eqn:E; [exact IH|].
  intros Heq. injection Heq as -> _. exact E.
Qed.

Lemma trim_empty (s : string) : trim s = "" <-> trimStart s = "".
Proof.
  unfold trim. split; [|intros ->; reflexivity].
  destruct (trimStart s) as [|c r] eqn:E; [reflexivity|].
  apply trimStart_head in E. simpl. rewrite E. discriminate.
Qed.

Lemma trimStart_append (s t : string) :
  trimStart (String.append s t) = "" <-> trimStart s = "" /\ trimStart t = "".
Proof.
  induction s as [|c s IH].
  - change (String.append "" t) with t. simpl. tauto.
  - change (String.append (String c s) t) with (String c (String.append s t)).
    simpl. destruct (isWhiteSpace c); [exact IH|].
    split; [discriminate | intros [? _]; discriminate].
Qed.

Lemma trim_Substring (q q' : string) :
  Substring q q' -> trim q' = "" -> trim q = "".
Proof.
  intros (pre & post & ->). rewrite !trim_empty, !trimStart_append. tauto.
Qed.

Lemma filter_sublist {A : Type} (p p' : A -> bool) (l : list A) :
  (forall x, p' x = true -> p x = true) ->
  sublist (List.filter p' l) (List.filter p l).
Proof.
  intros Himp. induction l as [|x l IH]; simpl; [constructor|].
  destruct (p' x) eqn:E'.
  - rewrite (Himp x E'). now constructor.
  - destruct (p x); [now constructor | exact IH].
Qed.

Lemma matchesQuery_narrow (q q' : string) (b : Book.t) :
  Substring q q' -> matchesQuery q' b = true -> matchesQuery q b = true.
Proof.
  intros Hs. rewrite !matchesQuery_Matches. unfold Matches.
  intros [Hm | [Hm | Hm]]; [left | right; left | right; right];
    eapply Substring_trans; eassumption.
Qed.

End Narrowing.

(** X7: when a query occurs inside another one, and its lower-cased form
    inside the other's lower-cased form, the longer query gives a
    subsequence of the shorter one's results: typing more characters
    before or after a query only takes books away. *)
Theorem X7_longer_query_narrows (books : list Book.t) (q q' : string) :
  Substring q q' ->
  Substring (toLowerCase q) (toLowerCase q') ->
  sublist (filteredBooks books q') (filteredBooks books q).
Proof.
  intros Hs Hlow. pose proof (filteredBooks_subsequence books q') as Hsub.
  pose proof (trim_Substring q q' Hs) as Htrim.
  unfold filteredBooks, truthy in *. rewrite !negb_involutive in *.
  destruct (isEmpty (trim q)) eqn:E; [exact Hsub|].
  destruct (isEmpty (trim q')) eqn:E'.
  - apply isEmpty_true in E'. apply Htrim, isEmpty_true in E'. congruence.
  - apply filter_sublist. intros b. now apply matchesQuery_narrow.
Qed.

Lemma X7_longer_query_narrows_witness :
  sublist (filteredBooks [plainBook "The Hobbit" "Tolkien" "Fantasy";
                          plainBook "Dune" "Herbert" "SciFi"] "The H")
          (filteredBooks [plainBook "The Hobbit" "Tolkien" "Fantasy";
                          plainBook "Dune" "Herbert" "SciFi"] "e").
Proof.
  apply X7_longer_query_narrows.
  - exists "Th", " H". reflexivity.
  - exists "th", " h". reflexivity.
Defined.

(** ** Sorting by a text key, and sorting again *)

Section OrderedSort.

Context {A : Type} (cmp : A -> A -> Q) (R : A -> A -> Prop).

Hypothesis R_trans : forall x y z, R x y -> R y z -> R x z.
Hypothesis cmp_after : forall x y, isPositive (cmp x y) = true -> R y x.
Hypothesis cmp_before : forall x y, isPositive (cmp x y) = false -> R x y.

Lemma insertBy_ordered (x : A) (l : list A) :
  StronglySorted R l -> StronglySorted R (insertBy cmp x l).
Proof.
  induction 1 as [|y l Hl IH Hy]; simpl.
  - repeat constructor.
  - destruct (isPositive (cmp x y)) eqn:E.
    + constructor; [exact IH|]. rewrite insertBy_perm.
      constructor; [now apply cmp_after | exact Hy].
    + constructor; [now constructor|].
      constructor; [now apply cmp_before|].
      eapply List.Forall_impl; [|exact Hy].
      intros z Hz. apply (R_trans x y z); [now apply cmp_before | exact Hz].
Qed.

Lemma arraySort_ordered (l : list A) : StronglySorted R (arraySort cmp l).
Proof.
  induction l as [|x l IH]; simpl; [constructor | now apply insertBy_ordered].
Qed.

End OrderedSort.

Section SortAgain.

Context {A : Type} (cmp : A -> A -> Q).

(** An array in which no item is to go after a later one is left as it
    is. *)
Lemma arraySort_fixed (l : list A) :
  StronglySorted (fun a b => isPositive (cmp a b) = false) l ->
  arraySort cmp l = l.
Proof.
  induction 1 as [|x l Hl IH Hx]; [reflexivity|].
  simpl. rewrite IH. destruct l as [|y l]; [reflexivity|].
  simpl. apply Forall_cons in Hx as [Hxy _]. now rewrite Hxy.
Qed.

Lemma StronglySorted_weaken (R1 R2 : A -> A -> Prop) (l : list A) :
  (forall a b, R1 a b -> R2 a b) -> StronglySorted R1 l -> StronglySorted R2 l.
Proof.
  intros Himp. induction 1 as [|x l Hl IH Hx]; constructor; [exact IH|].
  eapply List.Forall_impl; [|exact Hx]. intros b. apply Himp.
Qed.

End SortAgain.

Section CodeUnitOrder.

Lemma ascii_compare_trans (a b c : ascii) (o : comparison) :
  Ascii.compare a b = o -> Ascii.compare b c = o -> Ascii.compare a c = o.
Proof.
  unfold Ascii.compare. destruct o; intros H1 H2.
  - apply N.compare_eq_iff in H1. apply N.compare_eq_iff in H2.
    apply N.compare_eq_iff. congruence.
  - apply N.compare_lt_iff in H1. apply N.compare_lt_iff in H2.
    apply N.compare_lt_iff. eapply N.lt_trans; eassumption.
  - apply N.compare_gt_iff in H1. apply N.compare_gt_iff in H2.
    apply N.compare_gt_iff. eapply N.lt_trans; eassumption.
Qed.

Lemma string_compare_le_trans (s t u : string) :
  String.compare s t <> Gt -> String.compare t u <> Gt -> String.compare s u <> Gt.
Proof.
  revert t u; induction s as [|a s IH]; intros t u Hst Htu.
  - now destruct u.
  - destruct t as [|b t]; [now simpl in Hst|].
    destruct u as [|c u]; [now simpl in Htu|].
    simpl in *.
    destruct (Ascii.compare a b) eqn:Eab; [| |congruence].
    + apply Ascii.compare_eq_iff in Eab as ->.
      destruct (Ascii.compare b c) eqn:Ebc; [|discriminate|congruence].
      now apply (IH t u).
    + destruct (Ascii.compare b c) eqn:Ebc; [| |congruence].
      * apply Ascii.compare_eq_iff in Ebc as ->. now rewrite Eab.
      * now rewrite (ascii_compare_trans a b c Lt Eab Ebc).
Qed.

Lemma codeUnitCompare_le (s t : string) :
  codeUnitCompare s t <= 0 <-> String.compare s t <> Gt.
Proof.
  unfold codeUnitCompare. destruct (String.compare s t); split; (lia || congruence).
Qed.

Lemma codeUnitCompare_trans (s t u : string) :
  codeUnitCompare s t <= 0 -> codeUnitCompare t u <= 0 -> codeUnitCompare s u <= 0.
Proof. rewrite !codeUnitCompare_le. apply string_compare_le_trans. Qed.

Lemma codeUnitCompare_antisym (s t : string) :
  0 < codeUnitCompare s t -> codeUnitCompare t s <= 0.
Proof.
  unfold codeUnitCompare. rewrite (String.compare_antisym t s).
  destruct (String.compare s t); simpl; lia.
Qed.

End CodeUnitOrder.

Section TextKeys.

Context `{Collation}.

Lemma compareFn_text (key : string) (a b : Book.t) :
  key <> "rating" -> key <> "publishedYear" ->
  compareFn key a b = inject_Z (localeCompare (sortValue key a) (sortValue key b)).
Proof.
  intros H1 H2. unfold compareFn.
  apply String.eqb_neq in H1, H2. now rewrite H1, H2.
Qed.

Lemma isPositive_inject_Z (z : Z) : isPositive (inject_Z z) = (0 <? z).
Proof. reflexivity. Qed.

Hypothesis collate_trans : forall s t u,
  localeCompare s t <= 0 -> localeCompare t u <= 0 -> localeCompare s u <= 0.
Hypothesis collate_antisym : forall s t,
  0 < localeCompare s t -> localeCompare t s <= 0.

Lemma sortedBooks_text_ordered (filtered : list Book.t) (key : string) :
  key <> "rating" -> key <> "publishedYear" ->
  StronglySorted
    (fun a b => localeCompare (sortValue key a) (sortValue key b) <= 0)
    (sortedBooks filtered key).
Proof.
  intros H1 H2. unfold sortedBooks. apply arraySort_ordered.
  - intros x y z. apply collate_trans.
  - intros x y. rewrite compareFn_text, isPositive_inject_Z by assumption.
    intros Hp. apply Z.ltb_lt in Hp. now apply collate_antisym.
  - intros x y. rewrite compareFn_text, isPositive_inject_Z by assumption.
    intros Hp. apply Z.ltb_ge in Hp. exact Hp.
Qed.

End TextKeys.

(** X8: with a collation that orders strings consistently (its "not after"
    is transitive, and of two strings one is not after the other), sorting
    by 'title' gives a sequence in which no item's lower-cased title
    collates after that of a later item, and sorting by 'author' the same
    for the lower-cased author; for every key other than 'rating' and
    'publishedYear' the order is by the lower-cased value of the field the
    key names, the empty string where there is none, the result is a
    rearrangement of the input, and sorting it again by the same key
    leaves it as it is. *)
Theorem X8_text_key_ascending `{Collation} (filtered : list Book.t) :
  (forall s t u, localeCompare s t <= 0 -> localeCompare t u <= 0 ->
                 localeCompare s u <= 0) ->
  (forall s t, 0 < localeCompare s t -> localeCompare t s <= 0) ->
  StronglySorted
    (fun a b => localeCompare (toLowerCase (Book.title a))
                              (toLowerCase (Book.title b)) <= 0)
    (sortedBooks filtered "title")
  /\ StronglySorted
       (fun a b => localeCompare (toLowerCase (Book.author a))
                                 (toLowerCase (Book.author b)) <= 0)
       (sortedBooks filtered "author")
  /\ forall key, key <> "rating" -> key <> "publishedYear" ->
       StronglySorted
         (fun a b =>
            localeCompare
              (toLowerCase (match field key a with Some s => s | None => "" end))
              (toLowerCase (match field key b with Some s => s | None => "" end))
            <= 0)
         (sortedBooks filtered key)
       /\ sortedBooks filtered key ≡ₚ filtered
       /\ sortedBooks (sortedBooks filtered key) key = sortedBooks filtered key.
Proof.
  intros Htrans Hanti.
  assert (Hkey : forall key, key <> "rating" -> key <> "publishedYear" ->
            StronglySorted
              (fun a b =>
                 localeCompare
                   (toLowerCase (match field key a with Some s => s | None => "" end))
                   (toLowerCase (match field key b with Some s => s | None => "" end))
                 <= 0)
              (sortedBooks filtered key)).
  { intros key H1 H2.
    pose proof (sortedBooks_text_ordered Htrans Hanti filtered key H1 H2) as Hs.
    eapply StronglySorted_weaken; [|exact Hs].
    intros a b Hab. unfold sortValue in Hab.
    destruct (field key a), (field key b); exact Hab. }
  split; [|split].
  - apply (Hkey "title"); discriminate.
  - apply (Hkey "author"); discriminate.
  - intros key H1 H2. split; [now apply Hkey|]. split; [apply arraySort_perm|].
    unfold sortedBooks at 1. apply arraySort_fixed.
    eapply StronglySorted_weaken;
      [|exact (sortedBooks_text_ordered Htrans Hanti filtered key H1 H2)].
    intros a b Hab. rewrite compareFn_text, isPositive_inject_Z by assumption.
    now apply Z.ltb_ge.
Qed.

Lemma X8_text_key_ascending_witness :
  StronglySorted
    (fun a b => @localeCompare codeUnit (toLowerCase (Book.title a))
                               (toLowerCase (Book.title b)) <= 0)
    (@sortedBooks codeUnit [plainBook "b" "x" "y"; plainBook "A" "x" "y"] "title").
Proof.
  apply (@X8_text_key_ascending codeUnit [plainBook "b" "x" "y"; plainBook "A" "x" "y"]).
  - exact codeUnitCompare_trans.
  - exact codeUnitCompare_antisym.
Defined.

(** X9: sorting by 'rating' or by 'publishedYear' a sequence that is
    already sorted by that key changes nothing. *)
Theorem X9_numeric_sort_again `{Collation} (filtered : list Book.t) :
  sortedBooks (sortedBooks filtered "rating") "rating"
  = sortedBooks filtered "rating"
  /\ sortedBooks (sortedBooks filtered "publishedYear") "publishedYear"
     = sortedBooks filtered "publishedYear".
Proof.
  split; unfold sortedBooks at 1; apply arraySort_fixed.
  - eapply StronglySorted_weaken;
      [|apply (arraySort_descending _ ratingOr0 compareFn_rating)].
    intros a b Hab. simpl in Hab.
    destruct (isPositive (compareFn "rating" a b)) eqn:E; [|reflexivity].
    apply compareFn_rating in E. exfalso. eapply Qlt_not_le; eassumption.
  - eapply StronglySorted_weaken;
      [|apply (arraySort_descending _ (fun b => inject_Z (yearOr0 b)) compareFn_year)].
    intros a b Hab. simpl in Hab.
    destruct (isPositive (compareFn "publishedYear" a b)) eqn:E; [|reflexivity].
    apply compareFn_year in E. exfalso. eapply Qlt_not_le; eassumption.
Qed.

(** ** The detail page: loading the book *)

(** X10: however [getBook] ends, [loadBook] leaves the loading flag off, so
    the spinner goes away.  A book that is found replaces the one in the
    state and is shown; an absent book navigates to the 404 view, and only
    an absent book does; a rejected call reports the error; in both of
    these cases the book in the state stays as it was, and with none the
    page renders nothing. *)
Theorem X10_loadBook_outcomes
    (bookId : string) (answer : reply (option Book.t)) (st : DetailState) :
  let tr := loadBook bookId answer in
  let st' := runEffects st tr in
  isLoading st' = false
  /\ book st' = match answer with
               | Resolved (Some data) => Some data
               | _ => book st
               end
  /\ render st' = match book st' with
                 | Some b => DetailPage b
                 | None => Blank
                 end
  /\ (In (Navigate "/404") tr <-> answer = Resolved None)
  /\ (In (Do HandleApiError) tr <-> answer = Rejected)
  /\ In (GetBook bookId) tr.
Proof.
  destruct st, answer as [[data|]|]; cbn; repeat split;
    try (intros; discriminate); try tauto;
    try (intros [Hc|[Hc|[Hc|[Hc|[]]]]]; discriminate).
Qed.

(** ** The detail page: who may write a review, and what is sent *)

Section ReviewGate.

Lemma handleReviewSubmit_guard (env : Backend) (st : DetailState) :
  truthyId (userId st) = false \/ book st = None ->
  handleReviewSubmit env st = [].
Proof.
  unfold handleReviewSubmit. intros [Hu | Hb].
  - rewrite Hu. now destruct (book st).
  - now rewrite Hb.
Qed.

Lemma handleReviewSubmit_trace (env : Backend) (st : DetailState)
    (bk : Book.t) (u : string) :
  book st = Some bk -> userId st = Some u -> u <> "" ->
  handleReviewSubmit env st
  = [SetIsSubmittingReview true;
     CreateReview (Book.id bk) u (newRating (newReview st)) (newComment (newReview st))]
    ++ (if createReviewOk env then
          [ShowSuccess ReviewSubmitted; SetIsReviewModalOpen false;
           SetNewReview (mkNewReview 5 "");
           SetIsReviewLoading true; GetReviews (Book.id bk);
           SetIsSubmittingReview false]
          ++ loadReviews_resume env
        else [HandleApiError; SetIsSubmittingReview false]).
Proof.
  intros Hb Hu Hne. unfold handleReviewSubmit. rewrite Hb, Hu.
  apply truthy_true in Hne. cbn [truthyId default]. rewrite Hne.
  reflexivity.
Qed.

Lemma truthyId_Some (o : option string) :
  truthyId o = true <-> exists u, o = Some u /\ u <> "".
Proof.
  destruct o as [u|]; simpl.
  - rewrite truthy_true. split; [intros Hu; now exists u|].
    intros (u' & Heq & Hne). congruence.
  - split; [discriminate | intros (u & Heq & _); discriminate].
Qed.

Lemma handleReviewSubmit_cases (env : Backend) (st : DetailState) :
  handleReviewSubmit env st = []
  \/ exists bk u, book st = Some bk /\ userId st = Some u /\ u <> "".
Proof.
  destruct (book st) as [bk|] eqn:Hb; [|left; apply handleReviewSubmit_guard; auto].
  destruct (truthyId (userId st)) eqn:Hu;
    [|left; apply handleReviewSubmit_guard; auto].
  apply truthyId_Some in Hu as (u & Hu & Hne). right. now exists bk, u.
Qed.

End ReviewGate.

(** X11: a [createReview] call that the Submit Review button sends carries
    the identifier of the loaded book, the identifier of the signed-in
    user, which is not empty, and the rating and the comment of the form,
    and the comment is not empty. *)
Theorem X11_review_payload (env : Backend) (st : DetailState)
    (b u c : string) (r : Z) :
  In (CreateReview b u r c) (submitReviewButton env st) ->
  (exists bk, book st = Some bk /\ Book.id bk = b)
  /\ userId st = Some u /\ u <> ""
  /\ r = newRating (newReview st)
  /\ c = newComment (newReview st) /\ c <> "".
Proof.
  unfold submitReviewButton, Button.
  destruct (truthy (newComment (newReview st))) eqn:Hc; [|intros []].
  apply truthy_true in Hc. cbn [negb orb].
  destruct (isSubmittingReview st); [intros []|].
  destruct (handleReviewSubmit_cases env st) as [-> | (bk & u' & Hb & Hu & Hne)];
    [intros []|].
  rewrite (handleReviewSubmit_trace env st bk u' Hb Hu Hne).
  intros Hin.
  assert (Heq : CreateReview b u r c
                = CreateReview (Book.id bk) u' (newRating (newReview st))
                               (newComment (newReview st))).
  { unfold loadReviews_resume in Hin.
    destruct (createReviewOk env), (getReviewsResult env); cbn in Hin;
      repeat (destruct Hin as [Hin | Hin]; [try discriminate; now symmetry|]);
      destruct Hin. }
  injection Heq as -> -> -> ->. repeat split; eauto.
Qed.

Lemma X11_review_payload_witness :
  (exists bk, book (sampleState "l1" [] "fine") = Some bk /\ Book.id bk = "b1")
  /\ userId (sampleState "l1" [] "fine") = Some "u1" /\ "u1" <> ""
  /\ 4 = newRating (newReview (sampleState "l1" [] "fine"))
  /\ "fine" = newComment (newReview (sampleState "l1" [] "fine")) /\ "fine" <> "".
Proof.
  apply (X11_review_payload sampleEnv (sampleState "l1" [] "fine") "b1" "u1" "fine" 4).
  cbn. right. left. reflexivity.
Defined.

(** X12: a user who is not signed in cannot write a review: Write a Review
    sends them to the login view and leaves the state, the review modal
    included, as it is, and the submit handler, if it ran, would do
    nothing. *)
Theorem X12_signed_out_gate (env : Backend) (st : DetailState) :
  userId st = None \/ userId st = Some "" ->
  handleWriteReview st = [AlertLogin; Navigate "/login"]
  /\ runEffects st (handleWriteReview st) = st
  /\ handleReviewSubmit env st = []
  /\ submitReviewButton env st = [].
Proof.
  intros Hu.
  assert (Ht : truthyId (userId st) = false) by (destruct Hu as [-> | ->]; reflexivity).
  assert (Hh : handleReviewSubmit env st = [])
    by (apply handleReviewSubmit_guard; now left).
  unfold handleWriteReview, submitReviewButton, Button. rewrite Ht, Hh.
  repeat split.
  - now destruct st.
  - now destruct (_ || _).
Qed.

Lemma X12_signed_out_gate_witness :
  handleWriteReview initialDetail = [AlertLogin; Navigate "/login"]
  /\ runEffects initialDetail (handleWriteReview initialDetail) = initialDetail
  /\ handleReviewSubmit sampleEnv initialDetail = []
  /\ submitReviewButton sampleEnv initialDetail = [].
Proof.
  apply (X12_signed_out_gate sampleEnv initialDetail). left. reflexivity.
Defined.

(** X13: after [checkAuth] the user identifier in the state is never the
    empty string if it was not before; starting without a user, there is
    one afterwards exactly when the session resolved with a subject that
    is not empty, and then Write a Review opens the review modal. *)
Theorem X13_checkAuth_user (answer : reply (option string)) (st : DetailState) :
  let st' := runEffects st (checkAuth answer) in
  (userId st <> Some "" -> userId st' <> Some "")
  /\ (userId st = None ->
      (truthyId (userId st') = true
       <-> exists s, answer = Resolved (Some s) /\ s <> "")
      /\ (truthyId (userId st') = true ->
          handleWriteReview st' = [Do (SetIsReviewModalOpen true)]
          /\ isReviewModalOpen (runEffects st' (handleWriteReview st')) = true)).
Proof.
  destruct st as [bk ld up rls mo sel rv rl rm nr sb uid].
  destruct answer as [[s|]|]; cbn [checkAuth runEffects fold_left applyEffect
    apply orNull userId].
  - destruct (truthy s) eqn:Hs; cbn [userId]; split.
    + intros _ Heq. injection Heq as ->. discriminate.
    + intros ->. split.
      * cbn [truthyId]. rewrite Hs. split; [|reflexivity].
        intros _. exists s. split; [reflexivity|]. now apply truthy_true.
      * intros _. unfold handleWriteReview. cbn [userId truthyId]. rewrite Hs.
        split; reflexivity.
    + discriminate.
    + intros ->. split.
      * cbn [truthyId]. split; [discriminate|].
        intros (s' & Heq & Hne). injection Heq as <-.
        apply truthy_true in Hne. congruence.
      * discriminate.
  - cbn [userId]. split; [discriminate|]. intros ->. split.
    + cbn [truthyId]. split; [discriminate | intros (s' & Heq & _); discriminate].
    + discriminate.
  - cbn [userId]. split; [auto|]. intros ->. split.
    + cbn [truthyId]. split; [discriminate | intros (s' & Heq & _); discriminate].
    + discriminate.
Qed.

(** ** The detail page: the course of a submission *)

(** X14: a submission calls the collaborator at most twice and in this
    order: [createReview] once, and then [getReviews] for the same book,
    which is called only when [createReview] has succeeded. *)
Theorem X14_submit_calls (env : Backend) (st : DetailState) (bk : Book.t) (u : string) :
  book st = Some bk -> userId st = Some u -> u <> "" ->
  backendCalls (handleReviewSubmit env st)
  = CreateReview (Book.id bk) u (newRating (newReview st)) (newComment (newReview st))
    :: (if createReviewOk env then [GetReviews (Book.id bk)] else []).
Proof.
  intros Hb Hu Hne. rewrite (handleReviewSubmit_trace env st bk u Hb Hu Hne).
  unfold loadReviews_resume.
  destruct (createReviewOk env), (getReviewsResult env); reflexivity.
Qed.

Lemma X14_submit_calls_witness :
  backendCalls (handleReviewSubmit sampleEnv (sampleState "l1" [] "fine"))
  = [CreateReview "b1" "u1" 4 "fine"; GetReviews "b1"].
Proof.
  apply (X14_submit_calls sampleEnv (sampleState "l1" [] "fine")
           (plainBook "a" "x" "y") "u1");
    [reflexivity | reflexivity | discriminate].
Defined.

(** X15: a review is not sent twice.  From the first event of a submission
    that succeeds, in every state the run goes through and in the state it
    ends in, the Submit Review button does nothing: first because the
    submission is in flight, then because the comment has been cleared. *)
Theorem X15_no_double_submit (env env' : Backend) (st : DetailState) (n : nat) :
  createReviewOk env = true ->
  (0 < n)%nat ->
  submitReviewButton env' (run st (firstn n (submitReviewButton env st))) = [].
Proof.
  intros Hok Hn. destruct n as [|n]; [lia|]. clear Hn.
  unfold submitReviewButton at 2. unfold Button.
  destruct (negb (truthy (newComment (newReview st))) || isSubmittingReview st) eqn:Hdis.
  { rewrite firstn_nil. cbn [run fold_left].
    unfold submitReviewButton, Button. now rewrite Hdis. }
  destruct (handleReviewSubmit_cases env st) as [Hnil | (bk & u & Hb & Hu & Hne)].
  { rewrite Hnil, firstn_nil. cbn [run fold_left].
    unfold submitReviewButton, Button. rewrite Hdis.
    destruct (handleReviewSubmit_cases env' st) as [-> | (bk & u & Hb & Hu & Hne)];
      [reflexivity|].
    rewrite (handleReviewSubmit_trace env st bk u Hb Hu Hne) in Hnil. discriminate. }
  rewrite (handleReviewSubmit_trace env st bk u Hb Hu Hne), Hok.
  unfold loadReviews_resume.
  destruct st as [bk0 ld up rls mo sel rv rl rm [rating comment] sb uid].
  unfold submitReviewButton, Button.
  destruct (getReviewsResult env);
    do 11 (try (destruct n as [|n];
                [cbn; rewrite ?orb_true_r; reflexivity|]));
    cbn; rewrite ?firstn_nil; cbn; reflexivity.
Qed.

Lemma X15_no_double_submit_witness :
  submitReviewButton sampleEnv
    (run (sampleState "l1" [] "fine")
         (firstn 2 (submitReviewButton sampleEnv (sampleState "l1" [] "fine")))) = [].
Proof.
  apply (X15_no_double_submit sampleEnv sampleEnv (sampleState "l1" [] "fine") 2);
    [reflexivity | lia].
Defined.

(** X16: a submission that [createReview] rejects reports the error and
    leaves the page as it was: the modal open, the rating and the comment
    in place; submitting again sends the same review. *)
Theorem X16_failed_submit_keeps_form (env env' : Backend) (st : DetailState) :
  createReviewOk env = false ->
  isSubmittingReview st = false ->
  run st (handleReviewSubmit env st) = st
  /\ handleReviewSubmit env' (run st (handleReviewSubmit env st))
     = handleReviewSubmit env' st
  /\ (handleReviewSubmit env st <> [] -> In HandleApiError (handleReviewSubmit env st)).
Proof.
  intros Hok Hsub.
  assert (Hrun : run st (handleReviewSubmit env st) = st).
  { destruct (handleReviewSubmit_cases env st) as [-> | (bk & u & Hb & Hu & Hne)];
      [reflexivity|].
    rewrite (handleReviewSubmit_trace env st bk u Hb Hu Hne), Hok.
    destruct st; cbn in *. now subst. }
  rewrite Hrun. repeat split.
  destruct (handleReviewSubmit_cases env st) as [-> | (bk & u & Hb & Hu & Hne)];
    [congruence|].
  rewrite (handleReviewSubmit_trace env st bk u Hb Hu Hne), Hok.
  intros _. cbn. tauto.
Qed.

Lemma X16_failed_submit_keeps_form_witness :
  run (sampleState "l1" [] "fine")
      (handleReviewSubmit (mkBackend false true None) (sampleState "l1" [] "fine"))
  = sampleState "l1" [] "fine".
Proof.
  apply (X16_failed_submit_keeps_form (mkBackend false true None) sampleEnv
           (sampleState "l1" [] "fine"));
    reflexivity.
Defined.

(** X17: a submission that succeeds closes the review modal, resets the
    form to five stars and an empty comment, clears both busy flags, and
    replaces the reviews by the reloaded ones; if the reload is rejected,
    the reviews shown before stay.  Nothing else in the state changes. *)
Theorem X17_successful_submit_state
    (env : Backend) (st : DetailState) (bk : Book.t) (u : string) :
  book st = Some bk -> userId st = Some u -> u <> "" ->
  createReviewOk env = true ->
  run st (handleReviewSubmit env st)
  = mkDetail (book st) (isLoading st) (isUpdating st) (readingLists st)
             (isModalOpen st) (selectedListId st)
             (default (reviews st) (getReviewsResult env))
             false false (mkNewReview 5 "") false (userId st).
Proof.
  intros Hb Hu Hne Hok.
  rewrite (handleReviewSubmit_trace env st bk u Hb Hu Hne), Hok.
  unfold loadReviews_resume. destruct st, (getReviewsResult env); reflexivity.
Qed.

Lemma X17_successful_submit_state_witness :
  run (sampleState "l1" [] "fine")
      (handleReviewSubmit sampleEnv (sampleState "l1" [] "fine"))
  = mkDetail (Some (plainBook "a" "x" "y")) false false [] true "l1"
             [] false false (mkNewReview 5 "") false (Some "u1").
Proof.
  apply (X17_successful_submit_state sampleEnv (sampleState "l1" [] "fine")
           (plainBook "a" "x" "y") "u1");
    [reflexivity | reflexivity | discriminate | reflexivity].
Defined.

(** ** The detail page: the review form *)

Section ReviewForm.

Lemma newReview_after_submit (env : Backend) (st : DetailState) :
  newReview (run st (submitReviewButton env st)) = newReview st
  \/ newReview (run st (submitReviewButton env st)) = mkNewReview 5 "".
Proof.
  unfold submitReviewButton, Button. destruct (_ || _); [now left|].
  destruct (handleReviewSubmit_cases env st) as [-> | (bk & u & Hb & Hu & Hne)];
    [now left|].
  rewrite (handleReviewSubmit_trace env st bk u Hb Hu Hne).
  unfold loadReviews_resume.
  destruct st, (createReviewOk env), (getReviewsResult env); cbn; auto.
Qed.

Lemma formStep_rating (st : DetailState) (a : formAction) :
  1 <= newRating (newReview st) <= 5 ->
  1 <= newRating (newReview (formStep st a)) <= 5.
Proof.
  intros Hr. unfold formStep. destruct a as [star | value | env | ]; cbn [formEvents].
  - destruct (existsb (Z.eqb star) starButtons) eqn:E; [|exact Hr].
    apply existsb_exists in E as (x & Hin & Hx). apply Z.eqb_eq in Hx as <-.
    destruct st. cbn in *. lia.
  - destruct st. exact Hr.
  - destruct (newReview_after_submit env st) as [-> | ->]; [exact Hr | cbn; lia].
  - destruct st. exact Hr.
Qed.

Lemma formSteps_rating (actions : list formAction) (st : DetailState) :
  1 <= newRating (newReview st) <= 5 ->
  1 <= newRating (newReview (fold_left formStep actions st)) <= 5.
Proof.
  revert st; induction actions as [|a actions IH]; intros st Hr; [exact Hr|].
  cbn [fold_left]. apply IH. now apply formStep_rating.
Qed.

End ReviewForm.

(** X18: the rating of the form stays between 1 and 5 whatever the user
    does in the review modal (stars, typing, submitting, cancelling), so
    every review the form sends has a rating between 1 and 5. *)
Theorem X18_rating_in_range
    (st0 : DetailState) (actions : list formAction) (env : Backend)
    (b u c : string) (r : Z) :
  1 <= newRating (newReview st0) <= 5 ->
  let st := fold_left formStep actions st0 in
  1 <= newRating (newReview st) <= 5
  /\ (In (CreateReview b u r c) (formEvents (ClickSubmit env) st) -> 1 <= r <= 5).
Proof.
  intros H0 st. pose proof (formSteps_rating actions st0 H0) as Hr. fold st in Hr.
  split; [exact Hr|]. cbn [formEvents]. unfold submitReviewButton, Button.
  destruct (_ || _); [intros []|].
  destruct (handleReviewSubmit_cases env st) as [-> | (bk & u' & Hb & Hu & Hne)];
    [intros []|].
  rewrite (handleReviewSubmit_trace env st bk u' Hb Hu Hne).
  unfold loadReviews_resume. intros Hin.
  assert (Heq : r = newRating (newReview st)).
  { destruct (createReviewOk env), (getReviewsResult env); cbn in Hin;
      repeat (destruct Hin as [Hin | Hin]; [try discriminate; now injection Hin|]);
      destruct Hin. }
  now rewrite Heq.
Qed.

Lemma X18_rating_in_range_witness :
  1 <= newRating (newReview
         (fold_left formStep [ClickStar 2; ClickStar 9; TypeComment "fine"]
                    initialDetail)) <= 5.
Proof.
  apply (X18_rating_in_range initialDetail
           [ClickStar 2; ClickStar 9; TypeComment "fine"] sampleEnv "b" "u" "c" 1).
  cbn. lia.
Defined.

(** X19: of the five stars of a review the first [rating] are filled, none
    for a rating below 1 and all five for a rating above 5; the stars of
    the form light up in the same way. *)
Theorem X19_stars (rating : Z) :
  let k := Z.to_nat (Z.max 0 (Z.min 5 rating)) in
  reviewStars rating = repeat true k ++ repeat false (5 - k)
  /\ formStars rating = reviewStars rating.
Proof.
  intros k. unfold k, reviewStars, formStars, starButtons. cbn [seq map Z.of_nat].
  assert (Hcases : rating <= 0 \/ rating = 1 \/ rating = 2 \/ rating = 3
                   \/ rating = 4 \/ 5 <= rating) by lia.
  destruct Hcases as [Hc | [-> | [-> | [-> | [-> | Hc]]]]];
    try (split; reflexivity).
  - rewrite Z.max_l by lia.
    rewrite !(proj2 (Z.ltb_ge _ _)), !(proj2 (Z.leb_gt _ _)) by lia.
    split; reflexivity.
  - rewrite Z.min_l by lia.
    rewrite !(proj2 (Z.ltb_lt _ _)), !(proj2 (Z.leb_le _ _)) by lia.
    split; reflexivity.
Qed.

(** ** The detail page: the course of a confirmation *)

Section ConfirmCourse.

Lemma handleConfirmAdd_cases (env : Backend) (st : DetailState) :
  handleConfirmAdd env st = []
  \/ (selectedListId st <> "" /\ book st <> None
      /\ findList (readingLists st) (selectedListId st) = None
      /\ handleConfirmAdd env st = [SetIsUpdating true; SetIsUpdating false])
  \/ exists bk target,
       book st = Some bk /\ selectedListId st <> ""
       /\ findList (readingLists st) (selectedListId st) = Some target
       /\ handleConfirmAdd env st
          = [SetIsUpdating true;
             UpdateReadingList (selectedListId st)
               (default [] (ReadingList.bookIds target) ++ [Book.id bk])
               (ReadingList.name target)]
            ++ (if updateReadingListOk env then [Alert BookAdded; SetIsModalOpen false]
                else [ConsoleError; Alert ErrorAddingBook])
            ++ [SetIsUpdating false].
Proof.
  unfold handleConfirmAdd. destruct (book st) as [bk|] eqn:Hb; [|now left].
  destruct (truthy (selectedListId st)) eqn:Hsel; [|now left].
  apply truthy_true in Hsel. cbn [negb].
  destruct (findList (readingLists st) (selectedListId st)) as [target|] eqn:Hf.
  - right. right. exists bk, target. repeat split; auto.
  - right. left. repeat split; auto; discriminate.
Qed.

Lemma run_handleConfirmAdd_fields (env : Backend) (st : DetailState) :
  let st' := run st (handleConfirmAdd env st) in
  book st' = book st
  /\ readingLists st' = readingLists st
  /\ selectedListId st' = selectedListId st.
Proof.
  destruct (handleConfirmAdd_cases env st)
    as [-> | [(_ & _ & _ & ->) | (bk & target & _ & _ & _ & ->)]];
    destruct st; try destruct (updateReadingListOk env); cbn; auto.
Qed.

Lemma persisted_by_fields (env env' : Backend) (st st' : DetailState) :
  book st' = book st ->
  readingLists st' = readingLists st ->
  selectedListId st' = selectedListId st ->
  persisted (handleConfirmAdd env' st') = persisted (handleConfirmAdd env st).
Proof.
  intros Hb Hl Hs. unfold handleConfirmAdd. rewrite Hb, Hl, Hs.
  destruct (book st); [|reflexivity].
  destruct (negb _); [reflexivity|].
  destruct (findList _ _); [|reflexivity].
  now destruct (updateReadingListOk env), (updateReadingListOk env').
Qed.

End ConfirmCourse.

(** X20: the Confirm button runs the handler exactly when no update is in
    flight, and while one is in flight, in every state strictly inside a
    run of the handler, the button does nothing: two updates never
    overlap. *)
Theorem X20_confirm_lock (env env' : Backend) (st : DetailState) (n : nat) :
  confirmButton env st = (if isUpdating st then [] else handleConfirmAdd env st)
  /\ ((0 < n < length (handleConfirmAdd env st))%nat ->
      confirmButton env' (run st (firstn n (handleConfirmAdd env st))) = []).
Proof.
  split.
  - unfold confirmButton, Button.
    destruct (truthy (selectedListId st)) eqn:Hsel; cbn [negb orb]; [reflexivity|].
    unfold handleConfirmAdd. rewrite Hsel.
    destruct (isUpdating st), (book st); reflexivity.
  - intros Hn. unfold confirmButton, Button.
    destruct (handleConfirmAdd_cases env st)
      as [E | [(_ & _ & _ & E) | (bk & target & _ & _ & _ & E)]];
      rewrite E in *; clear E.
    + cbn in Hn. lia.
    + destruct st. cbn in Hn.
      destruct n as [|[|n]]; [lia| |lia]. cbn. now rewrite orb_true_r.
    + destruct st.
      destruct (updateReadingListOk env); cbn in Hn;
        do 5 (destruct n as [|n]; [try lia; cbn; now rewrite ?orb_true_r|]); lia.
Qed.

(** X21: an [updateReadingList] call of the handler is for the selected
    list, which is one of the loaded lists, keeps that list's name, and
    sends that list's identifiers followed by the identifier of the loaded
    book; the handler makes at most one such call. *)
Theorem X21_update_target (env : Backend) (st : DetailState)
    (listId name : string) (ids : list string) :
  In (UpdateReadingList listId ids name) (handleConfirmAdd env st) ->
  listId = selectedListId st /\ listId <> ""
  /\ (exists target bk,
         In target (readingLists st)
         /\ ReadingList.id target = listId
         /\ ReadingList.name target = name
         /\ book st = Some bk
         /\ ids = default [] (ReadingList.bookIds target) ++ [Book.id bk])
  /\ (length (persisted (handleConfirmAdd env st)) <= 1)%nat.
Proof.
  destruct (handleConfirmAdd_cases env st)
    as [E | [(_ & _ & _ & E) | (bk & target & Hb & Hsel & Hf & E)]];
    rewrite E; clear E.
  - intros [].
  - intros [Hc | [Hc | []]]; discriminate.
  - intros Hin.
    assert (Heq : UpdateReadingList listId ids name
                  = UpdateReadingList (selectedListId st)
                      (default [] (ReadingList.bookIds target) ++ [Book.id bk])
                      (ReadingList.name target)).
    { destruct (updateReadingListOk env); cbn in Hin;
        repeat (destruct Hin as [Hin | Hin]; [try discriminate; now symmetry|]);
        destruct Hin. }
    injection Heq as -> -> ->. split; [reflexivity|]. split; [exact Hsel|]. split.
    + exists target, bk. apply find_some in Hf as [Hin' Hid].
      apply String.eqb_eq in Hid. repeat split; auto.
    + destruct (updateReadingListOk env); cbn; lia.
Qed.

Lemma X21_update_target_witness :
  exists target bk,
    In target (readingLists (sampleState "l1" [ReadingList.mk "l1" "Mine" (Some ["b0"])] ""))
    /\ ReadingList.id target = "l1"
    /\ ReadingList.name target = "Mine"
    /\ book (sampleState "l1" [ReadingList.mk "l1" "Mine" (Some ["b0"])] "") = Some bk
    /\ ["b0"; "b1"] = default [] (ReadingList.bookIds target) ++ [Book.id bk].
Proof.
  apply (X21_update_target sampleEnv
           (sampleState "l1" [ReadingList.mk "l1" "Mine" (Some ["b0"])] "")
           "l1" "Mine" ["b0"; "b1"]).
  cbn. right. left. reflexivity.
Defined.

(** X22: the handler never changes the reading lists it has loaded, the
    book or the selection; so confirming a second time, whatever the
    outcome of the first, persists the same collection again: the first
    addition is not in it a second time. *)
Theorem X22_confirm_again_same (env env' : Backend) (st : DetailState) :
  let st' := run st (handleConfirmAdd env st) in
  readingLists st' = readingLists st
  /\ book st' = book st
  /\ selectedListId st' = selectedListId st
  /\ persisted (handleConfirmAdd env' st') = persisted (handleConfirmAdd env st).
Proof.
  intros st'. destruct (run_handleConfirmAdd_fields env st) as (Hb & Hl & Hs).
  fold st' in Hb, Hl, Hs. repeat split; auto.
  now apply persisted_by_fields.
Qed.

(** X23: when the target list is found, the state after the handler is the
    state before it with the busy flag off and, if the update succeeded,
    the modal closed; after a rejected update the modal stays as it was
    and the user is told of the error. *)
Theorem X23_confirm_outcome
    (env : Backend) (st : DetailState) (bk : Book.t) (target : ReadingList.t) :
  book st = Some bk ->
  selectedListId st <> "" ->
  findList (readingLists st) (selectedListId st) = Some target ->
  run st (handleConfirmAdd env st)
  = mkDetail (book st) (isLoading st) false (readingLists st)
             (if updateReadingListOk env then false else isModalOpen st)
             (selectedListId st) (reviews st) (isReviewLoading st)
             (isReviewModalOpen st) (newReview st) (isSubmittingReview st)
             (userId st)
  /\ (In (Alert BookAdded) (handleConfirmAdd env st) <-> updateReadingListOk env = true)
  /\ (In (Alert ErrorAddingBook) (handleConfirmAdd env st)
      <-> updateReadingListOk env = false).
Proof.
  intros Hb Hsel Hf.
  destruct (handleConfirmAdd_cases env st)
    as [E | [(_ & _ & Hnone & _) | (bk' & target' & _ & _ & _ & E)]].
  - exfalso. unfold handleConfirmAdd in E. apply truthy_true in Hsel.
    rewrite Hb, Hsel, Hf in E. discriminate.
  - congruence.
  - rewrite E. destruct st, (updateReadingListOk env); cbn;
      repeat split; try tauto; try discriminate;
      intros Hin; repeat (destruct Hin as [Hin | Hin]; [discriminate|]);
      destruct Hin.
Qed.

Lemma X23_confirm_outcome_witness :
  run (sampleState "l1" [ReadingList.mk "l1" "Mine" None] "")
      (handleConfirmAdd sampleEnv (sampleState "l1" [ReadingList.mk "l1" "Mine" None] ""))
  = mkDetail (Some (plainBook "a" "x" "y")) false false
             [ReadingList.mk "l1" "Mine" None] false "l1" [] false true
             (mkNewReview 4 "") false (Some "u1").
Proof.
  apply (X23_confirm_outcome sampleEnv
           (sampleState "l1" [ReadingList.mk "l1" "Mine" None] "")
           (plainBook "a" "x" "y") (ReadingList.mk "l1" "Mine" None));
    [reflexivity | discriminate | reflexivity].
Defined.
